(** * demoapp.py: corpus ingestion, index polling and answer highlighting

    A shallow embedding of the ingestion-and-reconciliation pipeline of
    [src/demoapp.py] (download, extract, upload, poll until indexed) and of
    its query-evaluation step, followed by the properties stated about them.

    Conventions of the embedding.
    - A Python [str] is a [string] read as Latin-1 text: one character per
      code point below 256.  On this range [str.lower] and [str.isspace]
      act character by character and [lower] preserves the length.  Text
      with other code points is outside the embedding: there [lower] can
      lengthen a text (U+0130 becomes two code points), so what is proved
      about the place of a highlight is proved of Latin-1 text only.
    - Counters and lengths are [nat]; [str.find] returns a [Z] because of
      its [-1]; wall-clock readings of [time.time()] and the durations
      computed from them are rationals ([Q]) with exact arithmetic.
    - Calls that leave the program (HTTP, the file system, the remote index,
      the clock, the Streamlit page) act on an explicit [World]; what the
      outside answers is an explicit argument of the call.
    - The wall clock is not the program's: it moves during an outside
      call, by the amount the reply carries; during [time.sleep], by the
      seconds asked for and by what the clock of the run adds to them;
      and between two readings that no outside call separates, by the
      pause the clock of the run gives.  Each of these amounts is
      negative when the system clock is set back meanwhile.
    - The page records what is shown (warnings, infos, successes, errors,
      progress values), oldest first.  Layout calls (columns, containers,
      spinners, emptying a placeholder) and the final [st.rerun()] are
      left out. *)

From Stdlib Require Import String Ascii List ZArith QArith Qround Lia Lqa Bool Arith PeanoNat.
Import ListNotations.

Close Scope Q_scope.
Local Open Scope string_scope.
Local Open Scope nat_scope.

(* ===================================================================== *)
(** * Python string operations *)
(* ===================================================================== *)

Module Py.

(** [len(s)] *)
Definition len (s : string) : nat := String.length s.

(** Code points of Latin-1 that [str.lower] changes: A-Z and the accented
    capitals U+00C0..U+00DE except the multiplication sign U+00D7. *)
Definition has_lower (c : ascii) : bool :=
  let n := nat_of_ascii c in
  ((65 <=? n) && (n <=? 90)) || ((192 <=? n) && (n <=? 222) && negb (n =? 215)).

Definition lower_char (c : ascii) : ascii :=
  if has_lower c then ascii_of_nat (nat_of_ascii c + 32) else c.

(** [s.lower()] *)
Fixpoint lower (s : string) : string :=
  match s with
  | EmptyString => EmptyString
  | String c s' => String (lower_char c) (lower s')
  end.

(** [c.isspace()] below U+0100: tab..carriage return, the separators
    U+001C..U+001F, space, NEL and the no-break space. *)
Definition isspace (c : ascii) : bool :=
  let n := nat_of_ascii c in
  ((9 <=? n) && (n <=? 13)) || ((28 <=? n) && (n <=? 32)) || (n =? 133) || (n =? 160).

Fixpoint lstrip (s : string) : string :=
  match s with
  | EmptyString => EmptyString
  | String c s' => if isspace c then lstrip s' else s
  end.

Fixpoint rstrip (s : string) : string :=
  match s with
  | EmptyString => EmptyString
  | String c s' =>
      match rstrip s' with
      | EmptyString => if isspace c then EmptyString else String c EmptyString
      | r => String c r
      end
  end.

(** [s.strip()] *)
Definition strip (s : string) : string := rstrip (lstrip s).

(** Truth value of a string in a condition: non-empty. *)
Definition truthy (s : string) : bool :=
  match s with EmptyString => false | String _ _ => true end.

(** [s.split()]: the maximal runs of non-space characters. *)
Fixpoint split (s : string) : list string :=
  match s with
  | EmptyString => []
  | String c s' =>
      if isspace c then split s'
      else match s' with
           | EmptyString => [String c EmptyString]
           | String c' _ =>
               if isspace c' then String c EmptyString :: split s'
               else match split s' with
                    | w :: ws => String c w :: ws
                    | [] => [String c EmptyString]
                    end
           end
  end.

(** [s[:n]] and [s[n:]] for [0 <= n]. *)
Fixpoint take (n : nat) (s : string) : string :=
  match n, s with
  | S n', String c s' => String c (take n' s')
  | _, _ => EmptyString
  end.

Fixpoint drop (n : nat) (s : string) : string :=
  match n, s with
  | S n', String _ s' => drop n' s'
  | _, _ => s
  end.

(** A slice bound as Python normalises it: a negative bound counts from
    the end, and every bound is clipped to [0 .. len s]. *)
Definition bound (i : Z) (n : nat) : nat :=
  if (i <? 0)%Z then Z.to_nat (Z.max 0 (i + Z.of_nat n)) else Nat.min (Z.to_nat i) n.

(** [s[lo:hi]], [s[:hi]] and [s[lo:]] *)
Definition slice (s : string) (lo hi : Z) : string :=
  let a := bound lo (len s) in
  let b := bound hi (len s) in
  take (b - a) (drop a s).

Definition slice_to (s : string) (hi : Z) : string := take (bound hi (len s)) s.

Definition slice_from (s : string) (lo : Z) : string := drop (bound lo (len s)) s.

(** [sub in s] *)
Fixpoint contains (sub s : string) : bool :=
  prefix sub s
  || match s with
     | EmptyString => false
     | String _ s' => contains sub s'
     end.

(** [s.find(sub)]: the lowest index at which [sub] starts, [-1] if none. *)
Fixpoint find (s sub : string) : Z :=
  if prefix sub s then 0%Z
  else match s with
       | EmptyString => (-1)%Z
       | String _ s' =>
           let r := find s' sub in
           if (r =? -1)%Z then (-1)%Z else (r + 1)%Z
       end.

(** [s.endswith(suffix)] *)
Definition endswith (s suffix : string) : bool :=
  (len suffix <=? len s) && String.eqb (drop (len s - len suffix) s) suffix.

(** [s.replace(old, new)] for a non-empty [old] (both call sites pass a
    literal): occurrences are replaced left to right, without overlap.
    [skip] counts the characters of a matched occurrence still to drop. *)
Fixpoint replace_from (skip : nat) (old new s : string) : string :=
  match s with
  | EmptyString => EmptyString
  | String c s' =>
      match skip with
      | S k => replace_from k old new s'
      | O =>
          if prefix old s then new ++ replace_from (len old - 1) old new s'
          else String c (replace_from 0 old new s')
      end
  end.

Definition replace (s old new : string) : string := replace_from 0 old new s.

End Py.

(* ===================================================================== *)
(** * The outside world *)
(* ===================================================================== *)

(** A Python exception, as far as the program looks at it: [str(e)]. *)
Inductive exn : Type := Exception (msg : string).

Definition str (e : exn) : string := let 'Exception msg := e in msg.

(** What the Streamlit page is asked to show.  A message keeps the values
    its f-string formats, not the formatted text. *)
Inductive message : Type :=
| CouldNotRead (file : string) (e : exn)
| CouldNotCheckStatus (e : exn)
| FailedToDownload (e : exn)
| Downloaded (n : nat) (download_time : Q)
| Indexing (i n : nat) (filename : string)
| FailedToIndex (filename : string) (e : exn)
| UploadComplete (successful_docs : nat) (upload_time : Q)
| FailedToUpload (failed_docs : nat)
| TimeoutReached (max_wait_time : Q)
| IndexingComplete (total_count : nat)
| IndexingInProgress (indexed_count total_count : nat) (progress_pct elapsed_time : Q)
| WaitingForDocuments (elapsed_time : Q).

Inductive ui_event : Type :=
| Warning (m : message)
| Info (m : message)
| Success (m : message)
| Error (m : message)
| StatusText (m : message)
| Progress (fraction : Q).

(** Requests that reach the remote index. *)
Inductive request : Type :=
| DocumentsAdd (collection_name path content : string)
| DocumentsGetInfoList (collection_name path_prefix : string).

(** [st.session_state.performance_stats] *)
Record performance_stats : Type := {
  total_time : Q;
  download_time : Q;
  upload_time : Q;
  indexing_time : Q;
  total_count : nat;
  total_tokens : nat
}.

(** The wall clock, the page (oldest event first), the requests sent so
    far (oldest first) and the two session entries the pipeline writes. *)
Record World : Type := {
  now : Q;
  page : list ui_event;
  sent : list request;
  session_performance_stats : option performance_stats;
  session_selected_corpus : option string
}.

(** How an outside call ends: the wall clock has moved by [dt] (negative
    when the system clock was set back meanwhile) and the call has
    returned a value or raised. *)
Record reply (A : Type) : Type := {
  dt : Q;
  outcome : exn + A
}.
Arguments dt {A} _.
Arguments outcome {A} _.

(** One entry of [doc_list.documents]. *)
Record doc_info : Type := {
  info_path : string;
  index_status : string
}.

(** The readings of [time.time()] that the branch may take with no
    outside call since the reading before: [indexing_start_time], the end
    of the upload loop (it has made no call when there is no document),
    [monitoring_start_time] and the first pass of the polling loop. *)
Inductive reading : Type := IndexingStart | UploadTime | MonitoringStart | FirstPass.

(** The wall clock where no outside call moves it: by how much it has
    moved when such a reading is taken, since the reading before
    ([pause]), and by how much more than the seconds asked for it moves
    during the [k]-th [time.sleep] of the polling loop, from 0
    ([oversleep]).  Either is negative when the system clock is set back
    meanwhile. *)
Record Clock : Type := {
  pause : reading -> Q;
  oversleep : nat -> Q
}.

(** The outside of the run, as the run meets it: the reply of the remote
    index to the [i]-th [documents.add] of the upload loop and to the
    [k]-th [documents.get_info_list] of the polling loop (both from 0),
    and the wall clock in between. *)
Record Service : Type := {
  documents_add : nat -> string -> string -> string -> reply unit;
  documents_get_info_list : nat -> string -> string -> reply (list doc_info);
  wall_clock : Clock
}.

(** A file found by [os.walk]: its name and what
    [open(path, "r", encoding="utf-8").read()] gives, the decoded text or
    the exception raised (a [UnicodeDecodeError] for bytes that are not
    UTF-8). *)
Record file : Type := {
  name : string;
  read : exn + string
}.

(** One step of [os.walk(temp_dir)]. *)
Record directory : Type := {
  root : string;
  dirs : list string;
  files : list file
}.

(** The downloaded bytes: not a zip archive ([zipfile.ZipFile] raises), or
    an archive, given by the walk of [temp_dir] after [extractall]
    (the walk also meets corpus.zip itself). *)
Inductive payload : Type :=
| NotAZip (e : exn)
| Zip (walk : list directory).

(** [requests.get(url)] *)
Record response : Type := {
  status_code : nat;
  body : payload
}.

(** * Computations: state passing over [World], with exceptions

    [Stop] is [st.stop()]: it ends the script and no [except Exception]
    catches it. *)
Inductive result (A : Type) : Type :=
| Ok (a : A)
| Raise (e : exn)
| Stop.
Arguments Ok {A} a.
Arguments Raise {A} e.
Arguments Stop {A}.

Definition M (A : Type) : Type := World -> result A * World.

Definition ret {A : Type} (a : A) : M A := fun w => (Ok a, w).

Definition bind {A B : Type} (m : M A) (k : A -> M B) : M B :=
  fun w =>
    match m w with
    | (Ok a, w') => k a w'
    | (Raise e, w') => (Raise e, w')
    | (Stop, w') => (Stop, w')
    end.

Definition raise {A : Type} (e : exn) : M A := fun w => (Raise e, w).

(** [try: body  except Exception as e: handler e] *)
Definition try_except {A : Type} (body : M A) (handler : exn -> M A) : M A :=
  fun w =>
    match body w with
    | (Raise e, w') => handler e w'
    | r => r
    end.

Declare Scope py_scope.
Delimit Scope py_scope with py.
Notation "x <- m ;; k" := (bind m (fun x => k))
  (at level 61, m at next level, right associativity) : py_scope.
Notation "m ;; k" := (bind m (fun _ => k))
  (at level 61, right associativity) : py_scope.
Local Open Scope py_scope.

Definition show (ev : ui_event) : M unit :=
  fun w =>
    (Ok tt, {| now := now w; page := (page w ++ [ev])%list; sent := sent w;
               session_performance_stats := session_performance_stats w;
               session_selected_corpus := session_selected_corpus w |}).

Definition st_warning (m : message) : M unit := show (Warning m).
Definition st_info (m : message) : M unit := show (Info m).
Definition st_success (m : message) : M unit := show (Success m).
Definition st_error (m : message) : M unit := show (Error m).
Definition st_progress (fraction : Q) : M unit := show (Progress fraction).
Definition st_stop {A : Type} : M A := fun w => (Stop, w).

(** [time.time()] *)
Definition time_time : M Q := fun w => (Ok (now w), w).

(** The program runs on, with no outside call, while the wall clock
    moves by [moved]. *)
Definition elapse (moved : Q) : M unit :=
  fun w =>
    (Ok tt, {| now := (now w + moved)%Q; page := page w; sent := sent w;
               session_performance_stats := session_performance_stats w;
               session_selected_corpus := session_selected_corpus w |}).

(** [time.sleep(secs)], during which the wall clock moves by [secs] and
    by [over] more: the time slept beyond [secs], and any adjustment of
    the system clock meanwhile. *)
Definition time_sleep (secs over : Q) : M unit :=
  fun w =>
    (Ok tt, {| now := (now w + (secs + over))%Q; page := page w; sent := sent w;
               session_performance_stats := session_performance_stats w;
               session_selected_corpus := session_selected_corpus w |}).

(** The clock moves by the reply's [dt]; the value comes back or the
    exception is raised. *)
Definition receive {A : Type} (r : reply A) : M A :=
  fun w =>
    let w' := {| now := (now w + dt r)%Q; page := page w; sent := sent w;
                 session_performance_stats := session_performance_stats w;
                 session_selected_corpus := session_selected_corpus w |} in
    match outcome r with
    | inl e => (Raise e, w')
    | inr a => (Ok a, w')
    end.

(** A call to the remote index: the request is sent, then answered. *)
Definition call {A : Type} (rq : request) (r : reply A) : M A :=
  fun w =>
    receive r {| now := now w; page := page w; sent := (sent w ++ [rq])%list;
                 session_performance_stats := session_performance_stats w;
                 session_selected_corpus := session_selected_corpus w |}.

Definition set_performance_stats (ps : performance_stats) : M unit :=
  fun w =>
    (Ok tt, {| now := now w; page := page w; sent := sent w;
               session_performance_stats := Some ps;
               session_selected_corpus := session_selected_corpus w |}).

Definition set_selected_corpus (c : string) : M unit :=
  fun w =>
    (Ok tt, {| now := now w; page := page w; sent := sent w;
               session_performance_stats := session_performance_stats w;
               session_selected_corpus := Some c |}).

(** [for i, x in enumerate(xs)] with the loop's variables in [s]; [i]
    is the index of the head of [xs]. *)
Fixpoint for_enumerate {A St : Type} (body : nat -> A -> St -> M St)
    (i : nat) (xs : list A) (s : St) : M St :=
  match xs with
  | [] => ret s
  | x :: xs' => s' <- body i x s ;; for_enumerate body (S i) xs' s'
  end.

(** [a > b] on clock values *)
Definition Qgtb (a b : Q) : bool := negb (Qle_bool a b).

(** [a / b] on two counters (true division) *)
Definition ratio (a b : nat) : Q := (inject_Z (Z.of_nat a) / inject_Z (Z.of_nat b))%Q.

(* ===================================================================== *)
(** * The functions of demoapp.py *)
(* ===================================================================== *)

(** The dictionaries [download_corpus] builds. *)
Record document : Type := {
  id : string;
  content : string;
  filename : string;
  corpus_name : string;
  original_path : string
}.

(** [response.raise_for_status()]: an HTTPError for 4xx and 5xx. *)
Definition raise_for_status (r : response) : M unit :=
  if (400 <=? status_code r) && (status_code r <? 600)
  then raise (Exception "HTTPError")
  else ret tt.

(** [zipfile.ZipFile(zip_path)], [extractall] and [os.walk(temp_dir)] *)
Definition extract_and_walk (r : response) : M (list directory) :=
  match body r with
  | NotAZip e => raise e
  | Zip walk => ret walk
  end.

(** [open(file_path, "r", encoding="utf-8")] and [f.read()] *)
Definition open_read (f : file) : M string :=
  match read f with
  | inl e => raise e
  | inr text => ret text
  end.

(** [file.endswith((".txt", ".json"))] *)
Definition included (file_name : string) : bool :=
  Py.endswith file_name ".txt" || Py.endswith file_name ".json".

(** The f-string of the [id] entry. *)
Definition document_id (corpus_name file_name : string) : string :=
  corpus_name ++ "_" ++ Py.replace (Py.replace file_name ".txt" EmptyString) ".json" EmptyString.

(** Body of the loop over [files]. *)
Definition read_document (corpus_name : string) (f : file) (documents : list document)
  : M (list document) :=
  if included (name f) then
    try_except
      (text <- open_read f ;;
       if Py.truthy (Py.strip text) then
         ret (documents ++ [ {| id := document_id corpus_name (name f);
                                content := text;
                                filename := name f;
                                corpus_name := corpus_name;
                                original_path := name f |} ])%list
       else ret documents)
      (fun e => st_warning (CouldNotRead (name f) e) ;; ret documents)
  else ret documents.

(** [download_corpus(url, temp_dir, corpus_name)], given what
    [requests.get(url)] answers. *)
Definition download_corpus (get : reply response) (corpus_name : string)
  : M (list document) :=
  response <- receive get ;;
  raise_for_status response ;;
  walk <- extract_and_walk response ;;
  for_enumerate
    (fun _ d documents =>
       for_enumerate (fun _ f documents => read_document corpus_name f documents)
                     0 (files d) documents)
    0 walk [].

(** [check_corpus_indexed(client, collection_name, corpus_name)] on the
    [k]-th status query of the run. *)
Definition check_corpus_indexed (client : Service) (k : nat)
    (collection_name corpus_name : string) : M (bool * nat * nat) :=
  try_except
    (let path_prefix := corpus_name ++ "_" in
     documents <- call (DocumentsGetInfoList collection_name path_prefix)
                       (documents_get_info_list client k collection_name path_prefix) ;;
     let total_docs := List.length documents in
     let indexed_docs :=
       List.length (filter (fun doc => String.eqb (index_status doc) "indexed") documents) in
     ret (0 <? total_docs, indexed_docs, total_docs))
    (fun e => st_warning (CouldNotCheckStatus e) ;; ret (false, 0, 0)).

Definition MARK_OPEN : string :=
  "<mark style=" ++ String (ascii_of_nat 34) "background-color: #90EE90; font-weight: bold;"
  ++ String (ascii_of_nat 34) ">".

Definition MARK_CLOSE : string := "</mark>".

(** [highlight_answer_in_content(content, expected_answer)] *)
Definition highlight_answer_in_content (content expected_answer : string) : string :=
  if Py.contains (Py.lower expected_answer) (Py.lower content) then
    let start_idx := Py.find (Py.lower content) (Py.lower expected_answer) in
    if negb (start_idx =? -1)%Z then
      let end_idx := (start_idx + Z.of_nat (Py.len expected_answer))%Z in
      Py.slice_to content start_idx
      ++ MARK_OPEN ++ Py.slice content start_idx end_idx ++ MARK_CLOSE
      ++ Py.slice_from content end_idx
    else content
  else content.

(** [count_tokens(text)] *)
Definition count_tokens (text : string) : nat := List.length (Py.split text).

(** ** main: the branch behind the download-and-index button *)

(** The variables of the upload loop. *)
Record upload_state : Type := {
  tokens : nat;
  successful_docs : nat;
  failed_docs : nat
}.

(** Body of [for i, doc in enumerate(documents_to_process)]; [n] is
    [len(documents_to_process)]. *)
Definition upload_document (client : Service) (collection_name : string) (n : nat)
    (i : nat) (doc : document) (s : upload_state) : M upload_state :=
  show (StatusText (Indexing (i + 1) n (filename doc))) ;;
  let doc_tokens := count_tokens (content doc) in
  let total_tokens := tokens s + doc_tokens in
  counts <- try_except
    (let doc_path := id doc ++ ".txt" in
     call (DocumentsAdd collection_name doc_path (content doc))
          (documents_add client i collection_name doc_path (content doc)) ;;
     ret (successful_docs s + 1, failed_docs s))
    (fun e =>
       let error_str := Py.lower (str e) in
       if negb (Py.contains "409" (str e)) && negb (Py.contains "already exists" error_str)
       then st_warning (FailedToIndex (filename doc) e) ;;
            ret (successful_docs s, failed_docs s + 1)
       else ret (successful_docs s, failed_docs s)) ;;
  show (Progress (ratio (i + 1) n)) ;;
  ret {| tokens := total_tokens;
         successful_docs := fst counts;
         failed_docs := snd counts |}.

Definition upload_documents (client : Service) (collection_name : string)
    (documents_to_process : list document) : M upload_state :=
  for_enumerate
    (upload_document client collection_name (List.length documents_to_process))
    0 documents_to_process
    {| tokens := 0; successful_docs := 0; failed_docs := 0 |}.

Definition max_wait_time : Q := 600.
Definition check_interval : Q := 5.

(** Where one pass through the body of [while True] leaves the poller:
    [Polling] when it reaches [time.sleep], the others at a [break]. *)
Inductive poll_state : Type := Polling | Converged | TimedOut | Errored.

(** What the loop reads from the enclosing function. *)
Record poll_context : Type := {
  client : Service;
  collection_name : string;
  selected_corpus : string;
  download_start_time : Q;
  download_time_so_far : Q;
  upload_time_so_far : Q;
  tokens_uploaded : nat;
  monitoring_start_time : Q
}.

(** One pass through the body of [while True], up to [time.sleep]; [k]
    counts the passes from 0. *)
Definition poll_iteration (c : poll_context) (k : nat) : M poll_state :=
  t <- time_time ;;
  let elapsed_time := (t - monitoring_start_time c)%Q in
  if Qgtb elapsed_time max_wait_time then
    st_warning (TimeoutReached max_wait_time) ;;
    ret TimedOut
  else
    try_except
      (status <- check_corpus_indexed (client c) k (collection_name c) (selected_corpus c) ;;
       let '(corpus_indexed, indexed_count, total_count) := status in
       if (indexed_count =? total_count) && (0 <? total_count) then
         t' <- time_time ;;
         let total_time := (t' - download_start_time c)%Q in
         let indexing_time :=
           (total_time - download_time_so_far c - upload_time_so_far c)%Q in
         st_success (IndexingComplete total_count) ;;
         set_performance_stats
           {| total_time := total_time;
              download_time := download_time_so_far c;
              upload_time := upload_time_so_far c;
              indexing_time := indexing_time;
              total_count := total_count;
              total_tokens := tokens_uploaded c |} ;;
         set_selected_corpus (selected_corpus c) ;;
         ret Converged
       else
         (if 0 <? total_count then
            let progress_pct := ratio indexed_count total_count in
            st_progress progress_pct ;;
            st_info (IndexingInProgress indexed_count total_count progress_pct elapsed_time)
          else st_info (WaitingForDocuments elapsed_time)) ;;
         ret Polling)
      (fun e => st_warning (CouldNotCheckStatus e) ;; ret Errored).

(** [while True]: at most [fuel] passes; [None] when they are used up
    with the loop still running. *)
Fixpoint poll_loop (fuel : nat) (c : poll_context) (k : nat) : M (option poll_state) :=
  match fuel with
  | O => ret None
  | S fuel' =>
      s <- poll_iteration c k ;;
      match s with
      | Polling =>
          time_sleep check_interval (oversleep (wall_clock (client c)) k) ;;
          poll_loop fuel' c (S k)
      | _ => ret (Some s)
      end
  end.

(** From [monitoring_start_time = time.time()] to the end of the loop. *)
Definition monitor_indexing (fuel : nat) (client : Service)
    (collection_name selected_corpus : string)
    (download_start_time download_time upload_time : Q) (total_tokens : nat)
  : M (option poll_state) :=
  monitoring_start_time <- time_time ;;
  elapse (pause (wall_clock client) FirstPass) ;;
  poll_loop fuel
    {| client := client;
       collection_name := collection_name;
       selected_corpus := selected_corpus;
       download_start_time := download_start_time;
       download_time_so_far := download_time;
       upload_time_so_far := upload_time;
       tokens_uploaded := total_tokens;
       monitoring_start_time := monitoring_start_time |}
    0.

(** The whole branch: download, upload, then poll. *)
Definition download_and_index (fuel : nat) (get : reply response) (client : Service)
    (collection_name selected_corpus : string) : M (option poll_state) :=
  download_start_time <- time_time ;;
  downloaded <- try_except
    (documents_to_process <- download_corpus get selected_corpus ;;
     t <- time_time ;;
     let download_time := (t - download_start_time)%Q in
     st_success (Downloaded (List.length documents_to_process) download_time) ;;
     ret (documents_to_process, download_time))
    (fun e => st_error (FailedToDownload e) ;; st_stop) ;;
  let '(documents_to_process, download_time) := downloaded in
  elapse (pause (wall_clock client) IndexingStart) ;;
  indexing_start_time <- time_time ;;
  st_progress 0 ;;
  s <- upload_documents client collection_name documents_to_process ;;
  elapse (pause (wall_clock client) UploadTime) ;;
  t <- time_time ;;
  let upload_time := (t - indexing_start_time)%Q in
  st_success (UploadComplete (successful_docs s) upload_time) ;;
  (if 0 <? failed_docs s then st_warning (FailedToUpload (failed_docs s)) else ret tt) ;;
  elapse (pause (wall_clock client) MonitoringStart) ;;
  monitor_indexing fuel client collection_name selected_corpus
    download_start_time download_time upload_time (tokens s).

(** ** main: showing the results of a query *)

(** An entry of the benchmark's [snippets]: both keys are optional. *)
Record expected_snippet : Type := {
  answer : option string;
  file_path : option string
}.

(** An entry of [response.results]. *)
Record query_result : Type := {
  result_content : string;
  result_path : string;
  score : Q
}.

(** [expected_answers], collected from the snippets that have an answer. *)
Fixpoint expected_answers_of (expected_snippets : list expected_snippet) : list string :=
  match expected_snippets with
  | [] => []
  | snippet :: rest =>
      match answer snippet with
      | Some a => a :: expected_answers_of rest
      | None => expected_answers_of rest
      end
  end.

(** The variables of the loop over [expected_answers] for one result. *)
Record annotation : Type := {
  highlighted_content : string;
  found_answers : list string;
  matches_found : nat
}.

(** Body of [for answer in expected_answers]. *)
Definition check_answer (content : string) (a : annotation) (answer : string) : annotation :=
  if Py.contains (Py.lower answer) (Py.lower content) then
    {| highlighted_content := highlight_answer_in_content (highlighted_content a) answer;
       found_answers := (found_answers a ++ [answer])%list;
       matches_found := matches_found a + 1 |}
  else a.

(** One result: [highlighted_content = content], [found_answers = []],
    then the loop; [matches_found] comes from the results before. *)
Definition annotate_result (expected_answers : list string) (matches_so_far : nat)
    (item : query_result) : annotation :=
  fold_left (check_answer (result_content item)) expected_answers
    {| highlighted_content := result_content item;
       found_answers := [];
       matches_found := matches_so_far |}.

(** [has_match] of the expander's title. *)
Definition has_match (expected_answers : list string) (item : query_result) : bool :=
  existsb (fun ans => Py.contains (Py.lower ans) (Py.lower (result_content item)))
          expected_answers.

(** [for i, item in enumerate(results, 1)]: what is shown for each result,
    and [matches_found] after the last. *)
Fixpoint show_results (expected_answers : list string) (matches_so_far : nat)
    (results : list query_result) : list annotation * nat :=
  match results with
  | [] => ([], matches_so_far)
  | item :: rest =>
      let a := annotate_result expected_answers matches_so_far item in
      let '(shown, total) := show_results expected_answers (matches_found a) rest in
      (a :: shown, total)
  end.

(** ** The helpers of demoapp.py outside the ingestion branch

    Their messages are not among those of the branch above: what they
    show is returned beside their result, oldest first. *)

(** [create_or_get_collection]'s second component. *)
Inductive setup_message : Type :=
| CreatedNewCollection (collection_name : string)
| UsingExistingCollection (collection_name : string)
| FailedToCreateCollection (e : exn).

(** [create_or_get_collection(client, collection_name)], given what
    [client.collections.add] answers (the requests recorded in the world
    are those about documents only). *)
Definition create_or_get_collection (add : reply unit) (collection_name : string)
  : M (bool * setup_message) :=
  try_except
    (receive add ;;
     ret (true, CreatedNewCollection collection_name))
    (fun e =>
       if Py.contains "409" (str e) || Py.contains "already exists" (Py.lower (str e))
       then ret (true, UsingExistingCollection collection_name)
       else ret (false, FailedToCreateCollection e)).

(** The dictionary [parse_document_with_api] returns: the texts of its
    pages and its note. *)
Record parsed_document : Type := {
  pages : list string;
  note : string
}.

(** [parse_document_with_api(client, content)] *)
Definition parse_document_with_api (content : string) : parsed_document :=
  {| pages := [ if 2000 <? Py.len content
                then Py.slice_to content 2000 ++ "..."
                else content ];
     note := "Full document parsing requires SDK support for parsers.parse_document()" |}.

(** The API key as the page shows it: [api_key[:4]], three dots,
    [api_key[-4:]]. *)
Definition masked_key (api_key : string) : string :=
  Py.slice_to api_key 4 ++ "..." ++ Py.slice_from api_key (-4).

(** Which of the three branches of step 2 a status takes. *)
Inductive corpus_state : Type := CorpusReady | PartialIndexing | CorpusNotIndexed.

Definition corpus_selection (status : bool * nat * nat) : corpus_state :=
  let '(corpus_indexed, indexed_count, total_count) := status in
  if corpus_indexed && (indexed_count =? total_count) then CorpusReady
  else if corpus_indexed && (indexed_count <? total_count) then PartialIndexing
  else CorpusNotIndexed.

(** The test of step 3 that keeps the queries away:
    [not corpus_indexed or indexed_count != total_count]. *)
Definition query_blocked (status : bool * nat * nat) : bool :=
  let '(corpus_indexed, indexed_count, total_count) := status in
  negb corpus_indexed || negb (indexed_count =? total_count).

(** An entry of the benchmark's [tests]. *)
Record benchmark_test : Type := {
  query : string;
  snippets : option (list expected_snippet)
}.

(** What [response.json()] can give, any JSON value, with what the
    loader looks at.  Of an object: its value under the key tests, if it
    has the key, and its other keys; [V] is the type of that value, which
    the loader stores as it is (the benchmark has the list of its tests
    there).  Of an array: its items, [Some] text for an item that is a
    string and [None] for any other item.  Of a number: whether it is
    not zero. *)
Inductive json_value (V : Type) : Type :=
| JObject (tests : option V) (other_keys : list string)
| JArray (items : list (option string))
| JString (text : string)
| JNumber (nonzero : bool)
| JBool (b : bool)
| JNull.
Arguments JObject {V} tests other_keys.
Arguments JArray {V} items.
Arguments JString {V} text.
Arguments JNumber {V} nonzero.
Arguments JBool {V} b.
Arguments JNull {V}.

(** [{}] *)
Definition no_queries {V : Type} : json_value V := JObject None [].

(** [requests.get(queries_url)]: the status and what [response.json()]
    gives, a value or the exception of a body that is not JSON. *)
Record queries_response (V : Type) : Type := {
  queries_status_code : nat;
  json : exn + json_value V
}.
Arguments queries_status_code {V} _.
Arguments json {V} _.

Inductive notice : Type :=
| FailedToDownloadQueries (e : exn)
| FailedToLoadQueries.

(** The body of the [try] of [download_queries]. *)
Definition fetch_queries {V : Type} (get : exn + queries_response V) : exn + json_value V :=
  match get with
  | inl e => inl e
  | inr response =>
      if (400 <=? queries_status_code response) && (queries_status_code response <? 600)
      then inl (Exception "HTTPError")
      else json response
  end.

(** [download_queries(queries_url)]: what it returns and the errors
    shown. *)
Definition download_queries {V : Type} (get : exn + queries_response V)
  : json_value V * list notice :=
  match fetch_queries get with
  | inr data => (data, [])
  | inl e => (no_queries, [FailedToDownloadQueries e])
  end.

(** The truth value of [queries_data]. *)
Definition json_truthy {V : Type} (queries_data : json_value V) : bool :=
  match queries_data with
  | JObject None [] => false
  | JObject _ _ => true
  | JArray items => negb (Nat.eqb (List.length items) 0)
  | JString text => Py.truthy text
  | JNumber nonzero => nonzero
  | JBool b => b
  | JNull => false
  end.

(** ["tests" in queries_data]: a key of an object, an item of an array,
    a part of a string; a TypeError on a number or a boolean. *)
Definition has_tests {V : Type} (queries_data : json_value V) : exn + bool :=
  match queries_data with
  | JObject (Some _) _ => inr true
  | JObject None _ => inr false
  | JArray items =>
      inr (existsb (fun item => match item with
                                | Some text => String.eqb text "tests"
                                | None => false
                                end) items)
  | JString text => inr (Py.contains "tests" text)
  | JNumber _ | JBool _ | JNull => inl (Exception "TypeError")
  end.

(** [queries_data["tests"]]: the value under the key of an object; a
    KeyError when the object has no such key, a TypeError on anything
    else, which no string indexes. *)
Definition tests_of {V : Type} (queries_data : json_value V) : exn + V :=
  match queries_data with
  | JObject (Some value) _ => inr value
  | JObject None _ => inl (Exception "KeyError")
  | _ => inl (Exception "TypeError")
  end.

(** main: the test on what [download_queries] returned and its two
    branches.  [Ok] carries what is stored in
    [st.session_state.queries_data]; nothing catches what is raised. *)
Definition store_queries {V : Type} (queries_data : json_value V) : result V * list notice :=
  if json_truthy queries_data then
    match has_tests queries_data with
    | inl e => (Raise e, [])
    | inr true =>
        match tests_of queries_data with
        | inl e => (Raise e, [])
        | inr value => (Ok value, [])
        end
    | inr false => (Stop, [FailedToLoadQueries])
    end
  else (Stop, [FailedToLoadQueries]).

(** main: loading the benchmark queries. *)
Definition load_queries {V : Type} (get : exn + queries_response V)
  : result V * list notice :=
  let '(queries_data, shown) := download_queries get in
  let '(r, shown') := store_queries queries_data in
  (r, (shown ++ shown')%list).

(** [selected_test.get("snippets", [])] *)
Definition expected_snippets_of (selected_test : benchmark_test) : list expected_snippet :=
  match snippets selected_test with
  | Some l => l
  | None => []
  end.

(** [a / b] with a float divisor: a ZeroDivisionError when it is zero. *)
Definition true_div (a b : Q) : exn + Q :=
  if Qeq_bool b 0 then inl (Exception "float division by zero") else inr (a / b)%Q.

(** The metrics of the statistics panel; [PureIndexRate None] is the
    metric that reads Instant. *)
Inductive metric : Type :=
| DownloadTimeMetric (seconds : Q)
| UploadTimeMetric (seconds : Q)
| IndexingTimeMetric (seconds : Q)
| TotalTimeMetric (seconds : Q)
| DocumentsPerSec (rate : Q)
| TokensPerSec (rate : Q)
| PureIndexRate (rate : option Q)
| AvgDocSize (tokens : Q).

(** main: the statistics panel of step 3, for the statistics [stats]
    found in the session: the metrics shown, in order, and the exception
    that ends the panel, if any. *)
Definition performance_panel (stats : performance_stats) : list metric * option exn :=
  let times := [DownloadTimeMetric (download_time stats);
                UploadTimeMetric (upload_time stats);
                IndexingTimeMetric (indexing_time stats);
                TotalTimeMetric (total_time stats)] in
  match true_div (inject_Z (Z.of_nat (total_count stats))) (total_time stats) with
  | inl e => (times, Some e)
  | inr docs_per_sec =>
      match true_div (inject_Z (Z.of_nat (total_tokens stats))) (total_time stats) with
      | inl e => ((times ++ [DocumentsPerSec docs_per_sec])%list, Some e)
      | inr tokens_per_sec =>
          let index_rate :=
            if Qgtb (indexing_time stats) 0
            then PureIndexRate (Some (inject_Z (Z.of_nat (total_count stats))
                                     / indexing_time stats)%Q)
            else PureIndexRate None in
          let avg_doc_size :=
            if 0 <? total_count stats
            then ratio (total_tokens stats) (total_count stats)
            else 0%Q in
          ((times ++ [DocumentsPerSec docs_per_sec; TokensPerSec tokens_per_sec;
                      index_rate; AvgDocSize avg_doc_size])%list,
           None)
      end
  end.

(** main: [if "performance_stats" in st.session_state]: the panel, then
    [del st.session_state.performance_stats]; an exception of the panel
    leaves the script before the [del]. *)
Definition show_performance_stats (w : World) : list metric * result unit * World :=
  match session_performance_stats w with
  | None => ([], Ok tt, w)
  | Some stats =>
      match performance_panel stats with
      | (shown, Some e) => (shown, Raise e, w)
      | (shown, None) =>
          (shown, Ok tt,
           {| now := now w; page := page w; sent := sent w;
              session_performance_stats := None;
              session_selected_corpus := session_selected_corpus w |})
      end
  end.

(* ===================================================================== *)
(** * scrape-github.py: the e-mail lookup *)
(* ===================================================================== *)

(** A commit of a push event: [commit['author']['email']]. *)
Record commit : Type := {
  author_email : string
}.

(** A public event: [event['type']] and [event['payload']['commits']],
    when the payload has the key. *)
Record github_event : Type := {
  event_type : string;
  payload_commits : option (list commit)
}.

(** [email_cache]: the entries in the order they were added, newest
    first; the code adds an entry only for a user that has none. *)
Definition email_cache : Type := list (string * string).

(** [email_cache[username]], when [username in email_cache]. *)
Fixpoint cached (cache : email_cache) (username : string) : option string :=
  match cache with
  | [] => None
  | (user, email) :: rest => if String.eqb user username then Some email else cached rest username
  end.

(** The inner loop: the first e-mail of [commits] that is not a no-reply
    address. *)
Fixpoint first_public_commit (commits : list commit) : option string :=
  match commits with
  | [] => None
  | c :: rest =>
      if negb (Py.contains "users.noreply.github.com" (author_email c))
      then Some (author_email c)
      else first_public_commit rest
  end.

(** The outer loop over the events. *)
Fixpoint first_public_email (events : list github_event) : option string :=
  match events with
  | [] => None
  | event :: rest =>
      match (if String.eqb (event_type event) "PushEvent" then payload_commits event else None) with
      | Some commits =>
          match first_public_commit commits with
          | Some email => Some email
          | None => first_public_email rest
          end
      | None => first_public_email rest
      end
  end.

(** [get_user_email(username)], for the cache [cache], given what
    [make_api_request(events_url)] returns when it is called ([None]
    after a failed request): the e-mail returned, the cache afterwards,
    and whether the request was made. *)
Definition get_user_email (username : string) (cache : email_cache)
    (events : option (list github_event)) : string * email_cache * bool :=
  match cached cache username with
  | Some email => (email, cache, false)
  | None =>
      match events with
      | None | Some [] =>
          ("Not found (no public events)",
           (username, "Not found (no public events)") :: cache, true)
      | Some evs =>
          match first_public_email evs with
          | Some email => (email, (username, email) :: cache, true)
          | None => ("Not found", (username, "Not found") :: cache, true)
          end
      end
  end.

(* ===================================================================== *)
(** * Notions used to state the properties *)
(* ===================================================================== *)

(** A world with nothing shown and nothing sent, the clock reading [t]. *)
Definition empty_world (t : Q) : World :=
  {| now := t; page := []; sent := [];
     session_performance_stats := None; session_selected_corpus := None |}.

Definition is_warning (ev : ui_event) : bool :=
  match ev with Warning _ => true | _ => false end.

(** Every file the walk meets, in the order of the walk. *)
Definition all_files (walk : list directory) : list file := flat_map files walk.

(** A response that carries a well-formed archive. *)
Definition valid_archive (r : response) (walk : list directory) : Prop :=
  (status_code r < 400 \/ 600 <= status_code r) /\ body r = Zip walk.

(** What one file of the walk contributes to the catalog and to the page. *)
Definition extracted (corpus_name : string) (f : file) : list document :=
  if included (name f) then
    match read f with
    | inr text =>
        if Py.truthy (Py.strip text) then
          [ {| id := document_id corpus_name (name f); content := text;
               filename := name f; corpus_name := corpus_name;
               original_path := name f |} ]
        else []
    | inl _ => []
    end
  else [].

Definition read_warning (f : file) : list ui_event :=
  if included (name f) then
    match read f with
    | inl e => [Warning (CouldNotRead (name f) e)]
    | inr _ => []
    end
  else [].

(** An included file that cannot be decoded; one that is blank. *)
Definition undecodable (f : file) : bool :=
  included (name f) && match read f with inl _ => true | inr _ => false end.

Definition blank (f : file) : bool :=
  included (name f)
  && match read f with inl _ => false | inr text => negb (Py.truthy (Py.strip text)) end.

Definition readable (f : file) : bool :=
  included (name f)
  && match read f with inl _ => false | inr text => Py.truthy (Py.strip text) end.

(** The basename without its extension, for the two included extensions. *)
Definition stem_of (file_name : string) : option string :=
  if Py.endswith file_name ".txt" then Some (Py.take (Py.len file_name - 4) file_name)
  else if Py.endswith file_name ".json" then Some (Py.take (Py.len file_name - 5) file_name)
  else None.

(** A stem in which neither extension occurs. *)
Definition plain (stem : string) : bool :=
  negb (Py.contains ".txt" stem) && negb (Py.contains ".json" stem).

Definition plain_name (file_name : string) : bool :=
  match stem_of file_name with
  | Some stem => plain stem
  | None => false
  end.

(** The names of the included files of a walk. *)
Definition included_names (walk : list directory) : list string :=
  filter included (map name (all_files walk)).

(** How one [documents.add] ends, as the upload loop tells the cases
    apart: returned, raised with a conflict message, raised otherwise. *)
Inductive add_kind : Type := Fresh | Conflict | Failed.

Definition is_conflict (e : exn) : bool :=
  Py.contains "409" (str e) || Py.contains "already exists" (Py.lower (str e)).

Definition kind_of (r : reply unit) : add_kind :=
  match outcome r with
  | inr _ => Fresh
  | inl e => if is_conflict e then Conflict else Failed
  end.

(** The kinds of the replies met by the upload loop, document by
    document; [i] is the index of the head of the list. *)
Fixpoint add_kinds (client : Service) (collection_name : string) (i : nat)
    (documents : list document) : list add_kind :=
  match documents with
  | [] => []
  | doc :: rest =>
      kind_of (documents_add client i collection_name (id doc ++ ".txt") (content doc))
      :: add_kinds client collection_name (S i) rest
  end.

Definition is_fresh (k : add_kind) : bool := match k with Fresh => true | _ => false end.
Definition is_conflicting (k : add_kind) : bool := match k with Conflict => true | _ => false end.
Definition is_failed (k : add_kind) : bool := match k with Failed => true | _ => false end.

Definition count {A : Type} (p : A -> bool) (l : list A) : nat := List.length (filter p l).

(** The status snapshot behind the [k]-th status query: (indexed, total),
    and [(0, 0)] when the query raises. *)
Definition snapshot (client : Service) (k : nat) (collection_name corpus_name : string)
  : nat * nat :=
  match outcome (documents_get_info_list client k collection_name (corpus_name ++ "_")) with
  | inl _ => (0, 0)
  | inr documents =>
      (List.length (filter (fun doc => String.eqb (index_status doc) "indexed") documents),
       List.length documents)
  end.

Definition status_delay (client : Service) (k : nat) (collection_name corpus_name : string) : Q :=
  dt (documents_get_info_list client k collection_name (corpus_name ++ "_")).

(** The number of status queries among the requests sent. *)
Definition status_queries (rqs : list request) : nat :=
  count (fun rq => match rq with DocumentsGetInfoList _ _ => true | _ => false end) rqs.

(** The progress fractions shown by the polling loop, oldest first. *)
Fixpoint reported_progress (evs : list ui_event) : list Q :=
  match evs with
  | [] => []
  | Info (IndexingInProgress _ _ progress_pct _) :: rest => progress_pct :: reported_progress rest
  | _ :: rest => reported_progress rest
  end.

(** A list of fractions that never goes down. *)
Fixpoint non_decreasing (l : list Q) : Prop :=
  match l with
  | [] => True
  | x :: rest => Forall (fun y => (x <= y)%Q) rest /\ non_decreasing rest
  end.

(** [content] with a highlight around the [n] characters from [start]. *)
Definition marked (content : string) (start n : nat) : string :=
  Py.take start content
  ++ MARK_OPEN ++ Py.take n (Py.drop start content) ++ MARK_CLOSE
  ++ Py.drop (start + n) content.

(** [start] is the first place where [answer] occurs in [content], letter
    case apart. *)
Definition first_occurrence (content answer : string) (start : nat) : Prop :=
  Py.lower (Py.take (Py.len answer) (Py.drop start content)) = Py.lower answer
  /\ start + Py.len answer <= Py.len content
  /\ forall i, i < start ->
       prefix (Py.lower answer) (Py.drop i (Py.lower content)) = false.

(** The world after the [k]-th status check. *)
Definition status_checked (client : Service) (k : nat) (collection_name corpus_name : string)
    (w : World) : World :=
  {| now := (now w + status_delay client k collection_name corpus_name)%Q;
     page := match outcome (documents_get_info_list client k collection_name
                              (corpus_name ++ "_")) with
             | inl e => (page w ++ [Warning (CouldNotCheckStatus e)])%list
             | inr _ => page w
             end;
     sent := (sent w ++ [DocumentsGetInfoList collection_name (corpus_name ++ "_")])%list;
     session_performance_stats := session_performance_stats w;
     session_selected_corpus := session_selected_corpus w |}.

(** [w] with [evs] added to the page; [w] with the clock moved by [d]. *)
Definition shown (w : World) (evs : list ui_event) : World :=
  {| now := now w; page := (page w ++ evs)%list; sent := sent w;
     session_performance_stats := session_performance_stats w;
     session_selected_corpus := session_selected_corpus w |}.

Definition elapsed (w : World) (d : Q) : World :=
  {| now := (now w + d)%Q; page := page w; sent := sent w;
     session_performance_stats := session_performance_stats w;
     session_selected_corpus := session_selected_corpus w |}.

(** What a tick that neither converges nor times out shows. *)
Definition tick_report (indexed_count total_count : nat) (elapsed_time : Q) : list ui_event :=
  if 0 <? total_count then
    [Progress (ratio indexed_count total_count);
     Info (IndexingInProgress indexed_count total_count
             (ratio indexed_count total_count) elapsed_time)]
  else [Info (WaitingForDocuments elapsed_time)].

(** The statistics stored by a tick that converges at clock reading [t]. *)
Definition stats_at (c : poll_context) (t : Q) (total_count : nat) : performance_stats :=
  {| total_time := (t - download_start_time c)%Q;
     download_time := download_time_so_far c;
     upload_time := upload_time_so_far c;
     indexing_time :=
       (t - download_start_time c - download_time_so_far c - upload_time_so_far c)%Q;
     total_count := total_count;
     total_tokens := tokens_uploaded c |}.

(** The world a converging tick leaves, from the world [w] after its
    status check. *)
Definition converged (c : poll_context) (total_count : nat) (w : World) : World :=
  {| now := now w;
     page := (page w ++ [Success (IndexingComplete total_count)])%list;
     sent := sent w;
     session_performance_stats := Some (stats_at c (now w) total_count);
     session_selected_corpus := Some (selected_corpus c) |}.

(** The fraction shown on tick [j] when it neither converges nor times
    out: that of its snapshot, and none when the snapshot is empty. *)
Definition tick_fraction (client : Service) (collection_name corpus_name : string) (j : nat)
  : list Q :=
  if 0 <? snd (snapshot client j collection_name corpus_name)
  then [ratio (fst (snapshot client j collection_name corpus_name))
              (snd (snapshot client j collection_name corpus_name))]
  else [].

(** The snapshot fractions never go down from one tick to a later one,
    among the ticks that see documents. *)
Definition fractions_non_decreasing (client : Service) (collection_name corpus_name : string)
  : Prop :=
  forall j k, j <= k ->
    0 < snd (snapshot client j collection_name corpus_name) ->
    0 < snd (snapshot client k collection_name corpus_name) ->
    (ratio (fst (snapshot client j collection_name corpus_name))
           (snd (snapshot client j collection_name corpus_name))
     <= ratio (fst (snapshot client k collection_name corpus_name))
              (snd (snapshot client k collection_name corpus_name)))%Q.

(** ** Notions for the upload loop, the polling loop and the results *)

(** The request by which the upload loop submits a document. *)
Definition add_request (collection_name : string) (doc : document) : request :=
  DocumentsAdd collection_name (id doc ++ ".txt") (content doc).

(** What the upload loop shows for the documents from index [i] on, of
    [n] in all: the status line, a warning when the submission failed,
    the progress value. *)
Fixpoint upload_events (client : Service) (collection_name : string) (n i : nat)
    (documents : list document) : list ui_event :=
  match documents with
  | [] => []
  | doc :: rest =>
      (StatusText (Indexing (i + 1) n (filename doc))
       :: match outcome (documents_add client i collection_name
                           (id doc ++ ".txt") (content doc)) with
          | inl e => if is_conflict e then [] else [Warning (FailedToIndex (filename doc) e)]
          | inr _ => []
          end
       ++ Progress (ratio (i + 1) n)
       :: upload_events client collection_name n (S i) rest)%list
  end.

(** The progress values among the events, oldest first. *)
Fixpoint progress_values (evs : list ui_event) : list Q :=
  match evs with
  | [] => []
  | Progress fraction :: rest => fraction :: progress_values rest
  | _ :: rest => progress_values rest
  end.

(** Why a download fails, if it does: [requests.get] raised, the status
    is an error status, or the payload is not an archive. *)
Definition download_failure (get : reply response) : option exn :=
  match outcome get with
  | inl e => Some e
  | inr r =>
      if (400 <=? status_code r) && (status_code r <? 600) then Some (Exception "HTTPError")
      else match body r with
           | NotAZip e => Some e
           | Zip _ => None
           end
  end.

(** The JSON values that pass the test of the loader without being an
    object: an array with the item tests, a string with tests in it, a
    number that is not zero, true. *)
Definition passes_for_an_object {V : Type} (queries_data : json_value V) : Prop :=
  (exists items, queries_data = JArray items /\ In (Some "tests") items)
  \/ (exists text, queries_data = JString text /\ Py.contains "tests" text = true)
  \/ queries_data = JNumber true
  \/ queries_data = JBool true.

(** A no-reply address of GitHub. *)
Definition is_noreply (email : string) : bool :=
  Py.contains "users.noreply.github.com" email.

(** The e-mails of the commits of the push events, in the order of the
    events and, within an event, of its commits. *)
Definition pushed_emails (events : list github_event) : list string :=
  flat_map (fun event =>
              if String.eqb (event_type event) "PushEvent" then
                match payload_commits event with
                | Some commits => map author_email commits
                | None => []
                end
              else [])
           events.

(** [answer] occurs in [content], letter case apart. *)
Definition occurs_in (content answer : string) : bool :=
  Py.contains (Py.lower answer) (Py.lower content).

(** Every character is white space. *)
Fixpoint all_space (s : string) : bool :=
  match s with
  | EmptyString => true
  | String c s' => Py.isspace c && all_space s'
  end.

(** The snapshot of tick [k] lists documents, all of them indexed. *)
Definition fully_indexed (client : Service) (collection_name corpus_name : string) (k : nat)
  : bool :=
  (fst (snapshot client k collection_name corpus_name)
   =? snd (snapshot client k collection_name corpus_name))
  && (0 <? snd (snapshot client k collection_name corpus_name)).

(** The wall clock is never set back where the branch reads it without an
    outside call, during a status query or during a sleep of the polling
    loop; so each [time.sleep] moves it by at least the seconds asked
    for. *)
Definition clock_runs_forward (client : Service) (collection_name corpus_name : string)
  : Prop :=
  (forall r, 0 <= pause (wall_clock client) r)%Q
  /\ (forall k, 0 <= oversleep (wall_clock client) k)%Q
  /\ (forall k, 0 <= status_delay client k collection_name corpus_name)%Q.

(** The time taken by [n] passes that do not end the loop, from tick [k]
    on: their status queries and their sleeps. *)
Fixpoint waiting_time (client : Service) (collection_name corpus_name : string) (k n : nat)
  : Q :=
  match n with
  | O => 0%Q
  | S n' =>
      (status_delay client k collection_name corpus_name
       + (check_interval + oversleep (wall_clock client) k)
       + waiting_time client collection_name corpus_name (S k) n')%Q
  end.

(* ===================================================================== *)
(** * Concrete runs *)
(* ===================================================================== *)

Module Scenario.

Definition text_file (file_name text : string) : file :=
  {| name := file_name; read := inr text |}.

Definition undecodable_file (file_name : string) : file :=
  {| name := file_name; read := inl (Exception "'utf-8' codec can't decode byte 0xff") |}.

(** The walk of a temporary directory that holds corpus.zip and [fs]. *)
Definition walk_of (fs : list file) : list directory :=
  [ {| root := "/tmp/tmpdir"; dirs := []; files := text_file "corpus.zip" "PK" :: fs |} ].

(** A 200 response whose archive extracts to [fs], received in 2 s. *)
Definition response_of (fs : list file) : response :=
  {| status_code := 200; body := Zip (walk_of fs) |}.

Definition archive_of (fs : list file) : reply response :=
  {| dt := 2%Q; outcome := inr (response_of fs) |}.

Definition same_stem : reply response :=
  archive_of [text_file "a.txt" "first"; text_file "a.json" "second"].

Definition one_blank : reply response :=
  archive_of [text_file "blank.txt" "   "].

Definition one_undecodable : reply response :=
  archive_of [text_file "good.txt" "hello world"; undecodable_file "bad.txt"].

Definition two_plain : reply response :=
  archive_of [text_file "a.txt" "first"; text_file "b.json" "second"].

(** [total] entries of which [indexed] are indexed. *)
Definition listing (indexed total : nat) : list doc_info :=
  (repeat {| info_path := "maud_doc.txt"; index_status := "indexed" |} indexed
   ++ repeat {| info_path := "maud_doc.txt"; index_status := "indexing" |} (total - indexed))%list.

(** A clock that nothing sets: no time passes between a reading and the
    next when no outside call is made, and every sleep takes exactly the
    seconds asked for. *)
Definition punctual : Clock :=
  {| pause := fun _ => 0%Q; oversleep := fun _ => 0%Q |}.

(** A service that accepts every document, except that the [i]-th add
    raises [e] when [adds i = Some e], and whose [k]-th status query takes
    [delay] and lists [nth k script last]; the clock is punctual. *)
Definition service (adds : nat -> option exn) (delay : Q)
    (script : list (nat * nat)) (last : nat * nat) : Service :=
  {| documents_add := fun i _ _ _ =>
       {| dt := 1%Q;
          outcome := match adds i with Some e => inl e | None => inr tt end |};
     documents_get_info_list := fun k _ _ =>
       let '(indexed, total) := nth k script last in
       {| dt := delay; outcome := inr (listing indexed total) |};
     wall_clock := punctual |}.

Definition no_error (i : nat) : option exn := None.

Definition conflict_on_second (i : nat) : option exn :=
  if i =? 1 then Some (Exception "Error code: 409 - document already exists") else None.

Definition three_documents : list document :=
  map (fun n => {| id := "maud_" ++ n; content := "some text"; filename := n ++ ".txt";
                   corpus_name := "maud"; original_path := n ++ ".txt" |})
      ["a"; "b"; "c"].

(** Every status query raises. *)
Definition unreachable : Service :=
  {| documents_add := fun _ _ _ _ => {| dt := 1%Q; outcome := inr tt |};
     documents_get_info_list := fun _ _ _ =>
       {| dt := 0%Q; outcome := inl (Exception "Connection error.") |};
     wall_clock := punctual |}.

(** More documents become visible between two ticks. *)
Definition growing : Service := service no_error (1 # 10)%Q [(1, 2); (1, 4)] (4, 4).

Definition steady : Service := service no_error (1 # 10)%Q [(0, 0); (1, 2)] (2, 2).


(** One more document is indexed at each tick. *)
Definition rising : Service :=
  service no_error (1 # 10)%Q [(0, 0); (1, 4); (2, 4); (3, 4)] (4, 4).

(** The index never finishes, its status query takes no time, and the
    system clock is set back by five seconds during every sleep. *)
Definition set_back_asleep : Service :=
  {| documents_add := fun _ _ _ _ => {| dt := 1%Q; outcome := inr tt |};
     documents_get_info_list := fun _ _ _ =>
       {| dt := 0%Q; outcome := inr (listing 1 2) |};
     wall_clock := {| pause := fun _ => 0%Q; oversleep := fun _ => (- (5))%Q |} |}.

(** The index lists two indexed documents at once; the system clock is
    set back by five seconds between the end of the download and the
    start of the upload, and by nothing else. *)
Definition set_back_between_phases : Service :=
  {| documents_add := fun _ _ _ _ => {| dt := 1%Q; outcome := inr tt |};
     documents_get_info_list := fun _ _ _ =>
       {| dt := (1 # 10)%Q; outcome := inr (listing 2 2) |};
     wall_clock :=
       {| pause := fun r => match r with IndexingStart => (- (5))%Q | _ => 0%Q end;
          oversleep := fun _ => 0%Q |} |}.

(** The index never finishes and its status query takes no time; the
    clock is punctual. *)
Definition never_indexed : Service := service no_error 0%Q [] (1, 2).

Definition context (s : Service) (start : Q) : poll_context :=
  {| client := s; collection_name := "default"; selected_corpus := "maud";
     download_start_time := 0%Q; download_time_so_far := 2%Q; upload_time_so_far := 3%Q;
     tokens_uploaded := 6; monitoring_start_time := start |}.

Definition item (text : string) : query_result :=
  {| result_content := text; result_path := "maud_a.txt"; score := (9 # 10)%Q |}.

End Scenario.

Example lower_mixed : Py.lower "Hello, WORLD 42!" = "hello, world 42!".
Proof. reflexivity. Qed.

Example strip_blank : Py.strip (String (ascii_of_nat 9) "  ") = EmptyString.
Proof. reflexivity. Qed.

Example strip_text : Py.strip "  a b  " = "a b".
Proof. reflexivity. Qed.

Example split_text : Py.split "  to be  or not " = ["to"; "be"; "or"; "not"].
Proof. reflexivity. Qed.

Example find_hit : Py.find "abcabc" "ca" = 2%Z.
Proof. reflexivity. Qed.

Example find_miss : Py.find "abcabc" "cb" = (-1)%Z.
Proof. reflexivity. Qed.

Example replace_all : Py.replace "a.txt.txt" ".txt" EmptyString = "a".
Proof. reflexivity. Qed.

Example slice_mid : Py.slice "abcdef" 2 4 = "cd".
Proof. reflexivity. Qed.

Example endswith_txt : Py.endswith "notes.txt" ".txt" = true.
Proof. reflexivity. Qed.

(* ===================================================================== *)
(** * The status check *)
(* ===================================================================== *)

Lemma count_le_length {A : Type} (p : A -> bool) (l : list A) :
  List.length (filter p l) <= List.length l.
Proof.
  induction l as [|x l IH]; simpl; [lia|].
  destruct (p x); simpl; lia.
Qed.

Lemma snapshot_bounded client k coll corpus :
  fst (snapshot client k coll corpus) <= snd (snapshot client k coll corpus).
Proof.
  unfold snapshot.
  destruct (outcome _) as [e|documents]; simpl; [lia|].
  apply count_le_length.
Qed.

(** The status check never raises: it returns the snapshot behind the
    query, and the world is [status_checked]. *)
Lemma check_corpus_indexed_eq client k coll corpus w :
  check_corpus_indexed client k coll corpus w
  = (Ok (0 <? snd (snapshot client k coll corpus),
         fst (snapshot client k coll corpus),
         snd (snapshot client k coll corpus)),
     status_checked client k coll corpus w).
Proof.
  unfold check_corpus_indexed, snapshot, status_checked, status_delay.
  unfold try_except, bind, call, receive, st_warning, show, ret; simpl.
  destruct (outcome (documents_get_info_list client k coll (corpus ++ "_")))
    as [e|documents]; reflexivity.
Qed.

(** C10: [check_corpus_indexed] always returns a triple and never raises;
    when the status query raises the triple is [(False, 0, 0)]; in every
    return the indexed count is at most the total count and the boolean
    is true exactly when the total count is positive. *)
Theorem check_corpus_indexed_total :
  forall client k coll corpus w,
  exists corpus_indexed indexed_docs total_docs w',
    check_corpus_indexed client k coll corpus w
      = (Ok (corpus_indexed, indexed_docs, total_docs), w')
    /\ indexed_docs <= total_docs
    /\ (corpus_indexed = true <-> 0 < total_docs)
    /\ (forall e,
          outcome (documents_get_info_list client k coll (corpus ++ "_")) = inl e ->
          (corpus_indexed, indexed_docs, total_docs) = (false, 0, 0)
          /\ page w' = (page w ++ [Warning (CouldNotCheckStatus e)])%list).
Proof.
  intros client k coll corpus w.
  rewrite check_corpus_indexed_eq.
  do 4 eexists. split; [reflexivity|].
  split; [apply snapshot_bounded|].
  split; [apply Nat.ltb_lt|].
  intros e He. unfold snapshot, status_checked. rewrite He. split; reflexivity.
Qed.

(* ===================================================================== *)
(** * One pass through the polling loop *)
(* ===================================================================== *)

Lemma Qgtb_true a b : Qgtb a b = true <-> (b < a)%Q.
Proof.
  unfold Qgtb. rewrite negb_true_iff.
  split; intro H.
  - apply Qnot_le_lt. intro Hle. apply Qle_bool_iff in Hle. congruence.
  - destruct (Qle_bool a b) eqn:E; [|reflexivity].
    apply Qle_bool_iff in E. exfalso. exact (Qlt_not_le _ _ H E).
Qed.

Lemma Qgtb_false a b : Qgtb a b = false <-> (a <= b)%Q.
Proof.
  unfold Qgtb. rewrite negb_false_iff. apply Qle_bool_iff.
Qed.

Lemma shown_nil w : shown w [] = w.
Proof. destruct w; unfold shown; simpl. now rewrite app_nil_r. Qed.

Lemma shown_shown w a b : shown (shown w a) b = shown w (a ++ b).
Proof. unfold shown; simpl. now rewrite app_assoc. Qed.

(** A pass that finds the time used up stops with [TimedOut]. *)
Lemma poll_iteration_timed_out c k w :
  (max_wait_time < now w - monitoring_start_time c)%Q ->
  poll_iteration c k w = (Ok TimedOut, shown w [Warning (TimeoutReached max_wait_time)]).
Proof.
  intro H. apply Qgtb_true in H.
  unfold poll_iteration, bind, time_time. rewrite H. reflexivity.
Qed.

(** A pass within the time: the outcome is decided by the snapshot. *)
Lemma poll_iteration_tick c k w :
  (now w - monitoring_start_time c <= max_wait_time)%Q ->
  poll_iteration c k w =
    let snap := snapshot (client c) k (collection_name c) (selected_corpus c) in
    let w1 := status_checked (client c) k (collection_name c) (selected_corpus c) w in
    if (fst snap =? snd snap) && (0 <? snd snap)
    then (Ok Converged, converged c (snd snap) w1)
    else (Ok Polling,
          shown w1 (tick_report (fst snap) (snd snap) (now w - monitoring_start_time c)%Q)).
Proof.
  intro H. apply Qgtb_false in H.
  unfold poll_iteration, bind at 1, time_time. rewrite H.
  unfold try_except, bind at 1. rewrite check_corpus_indexed_eq.
  cbv zeta.
  destruct ((fst (snapshot (client c) k (collection_name c) (selected_corpus c))
             =? snd (snapshot (client c) k (collection_name c) (selected_corpus c)))
            && (0 <? snd (snapshot (client c) k (collection_name c) (selected_corpus c))))
    eqn:E.
  - reflexivity.
  - unfold tick_report.
    destruct (0 <? snd (snapshot (client c) k (collection_name c) (selected_corpus c)));
      unfold bind, st_progress, st_info, show, ret, shown; simpl;
      rewrite <- ?app_assoc; reflexivity.
Qed.

(** C5: on a tick within the allowed time the poller ends in Converged
    exactly when the snapshot returned by the status check has a positive
    total and as many indexed documents as its total; otherwise it stays
    in Polling, and when the total is zero it shows that it is waiting
    for the documents to appear. *)
Theorem poll_transition :
  forall c k w corpus_indexed indexed_count total_count w1,
    (now w - monitoring_start_time c <= max_wait_time)%Q ->
    check_corpus_indexed (client c) k (collection_name c) (selected_corpus c) w
      = (Ok (corpus_indexed, indexed_count, total_count), w1) ->
    exists st w',
      poll_iteration c k w = (Ok st, w')
      /\ (st = Converged <-> (0 < total_count /\ indexed_count = total_count))
      /\ (st <> Converged -> st = Polling)
      /\ (total_count = 0 ->
            st = Polling
            /\ page w' = (page w1
                          ++ [Info (WaitingForDocuments
                                      (now w - monitoring_start_time c)%Q)])%list).
Proof.
  intros c k w ci ic tc w1 Htime Hcheck.
  rewrite check_corpus_indexed_eq in Hcheck.
  injection Hcheck as _ Hic Htc Hw1.
  rewrite (poll_iteration_tick c k w Htime). cbv zeta.
  rewrite Hic, Htc, Hw1.
  destruct ((ic =? tc) && (0 <? tc)) eqn:E.
  - apply andb_true_iff in E. destruct E as [E1 E2].
    apply Nat.eqb_eq in E1. apply Nat.ltb_lt in E2.
    exists Converged. eexists. split; [reflexivity|].
    split; [tauto|]. split; [congruence|]. intros ->. lia.
  - exists Polling. eexists. split; [reflexivity|].
    split.
    + split; [discriminate|]. intros [Hpos Heq]. exfalso.
      apply andb_false_iff in E. destruct E as [E|E].
      * apply Nat.eqb_neq in E. contradiction.
      * apply Nat.ltb_ge in E. lia.
    + split; [reflexivity|]. intros ->. split; [reflexivity|]. reflexivity.
Qed.

Lemma poll_transition_witness :
  exists st w',
    poll_iteration (Scenario.context Scenario.steady 10) 0 (empty_world 10) = (Ok st, w')
    /\ (st = Converged <-> (0 < 0 /\ 0 = 0))
    /\ (st <> Converged -> st = Polling)
    /\ (0 = 0 ->
          st = Polling
          /\ page w' = (page (status_checked Scenario.steady 0 "default" "maud" (empty_world 10))
                        ++ [Info (WaitingForDocuments (10 - 10)%Q)])%list).
Proof.
  apply (poll_transition (Scenario.context Scenario.steady 10) 0 (empty_world 10)
           false 0 0
           (status_checked Scenario.steady 0 "default" "maud" (empty_world 10))).
  - vm_compute. discriminate.
  - reflexivity.
Defined.

(** C2: when the status query of a tick raises, the pass does not end in
    Errored: the warning of the status check is shown, the poller shows
    that it is waiting for documents and stays in Polling. *)
Theorem status_failure_keeps_polling :
  forall c k w e,
    (now w - monitoring_start_time c <= max_wait_time)%Q ->
    outcome (documents_get_info_list (client c) k (collection_name c)
               (selected_corpus c ++ "_")) = inl e ->
    exists w',
      poll_iteration c k w = (Ok Polling, w')
      /\ page w' = (page w ++ [Warning (CouldNotCheckStatus e);
                                Info (WaitingForDocuments
                                        (now w - monitoring_start_time c)%Q)])%list.
Proof.
  intros c k w e Htime He.
  rewrite (poll_iteration_tick c k w Htime). cbv zeta.
  unfold snapshot, status_checked. rewrite He. simpl.
  eexists. split; [reflexivity|]. simpl. now rewrite <- app_assoc.
Qed.

Lemma status_failure_keeps_polling_witness :
  exists w',
    poll_iteration (Scenario.context Scenario.unreachable 10) 0 (empty_world 10)
      = (Ok Polling, w')
    /\ page w' = [Warning (CouldNotCheckStatus (Exception "Connection error."));
                  Info (WaitingForDocuments (10 - 10)%Q)].
Proof.
  apply (status_failure_keeps_polling (Scenario.context Scenario.unreachable 10) 0
           (empty_world 10) (Exception "Connection error.")).
  - vm_compute. discriminate.
  - reflexivity.
Defined.

(** No pass through the loop ends in Errored. *)
Lemma poll_iteration_never_errored c k w : fst (poll_iteration c k w) <> Ok Errored.
Proof.
  destruct (Qlt_le_dec max_wait_time (now w - monitoring_start_time c)) as [H|H].
  - rewrite (poll_iteration_timed_out c k w H). discriminate.
  - rewrite (poll_iteration_tick c k w H). cbv zeta.
    destruct (_ && _); discriminate.
Qed.

(** With a service whose status query always raises, the poller runs
    until the time is used up: 121 queries, then TimedOut. *)
Example unreachable_service_times_out :
  let r := monitor_indexing 122 Scenario.unreachable "default" "maud" 0 2 3 6 (empty_world 5) in
  fst r = Ok (Some TimedOut)
  /\ status_queries (sent (snd r)) = 121
  /\ count is_warning (page (snd r)) = 122.
Proof. vm_compute. repeat split. Qed.

(* ===================================================================== *)
(** * The polling loop *)
(* ===================================================================== *)

Lemma status_queries_app a b : status_queries (a ++ b) = status_queries a + status_queries b.
Proof.
  unfold status_queries, count. rewrite filter_app. apply length_app.
Qed.

Lemma poll_loop_unfold fuel c k w :
  poll_loop (S fuel) c k w =
    match poll_iteration c k w with
    | (Ok Polling, w') =>
        poll_loop fuel c (S k)
          (elapsed w' (check_interval + oversleep (wall_clock (client c)) k))
    | (Ok s, w') => (Ok (Some s), w')
    | (Raise e, w') => (Raise e, w')
    | (Stop, w') => (Stop, w')
    end.
Proof.
  cbn [poll_loop]. unfold bind at 1.
  destruct (poll_iteration c k w) as [[[| | |]|e|] w']; reflexivity.
Qed.

(** The loop stops at the first pass that finds the time used up. *)
Lemma poll_loop_timed_out fuel c k w :
  (max_wait_time < now w - monitoring_start_time c)%Q ->
  poll_loop (S fuel) c k w
  = (Ok (Some TimedOut), shown w [Warning (TimeoutReached max_wait_time)]).
Proof.
  intro H. rewrite poll_loop_unfold, (poll_iteration_timed_out c k w H). reflexivity.
Qed.

(** If [n] more sleeps are enough to use up the time, the loop ends within
    [n + 1] passes, after at most [n] status queries. *)
Lemma poll_loop_bounded c :
  clock_runs_forward (client c) (collection_name c) (selected_corpus c) ->
  forall n k w,
    (max_wait_time
     < now w - monitoring_start_time c + inject_Z (Z.of_nat n) * check_interval)%Q ->
    exists st w',
      poll_loop (S n) c k w = (Ok (Some st), w')
      /\ (st = Converged \/ st = TimedOut)
      /\ status_queries (sent w') <= status_queries (sent w) + n.
Proof.
  intros (_ & Hsleep & Hdelay) n. induction n as [|n IH]; intros k w Hn.
  - exists TimedOut. eexists. rewrite poll_loop_timed_out.
    + split; [reflexivity|]. split; [now right|]. simpl. lia.
    + change (inject_Z (Z.of_nat 0)) with 0%Q in Hn.
      unfold max_wait_time, check_interval in *. lra.
  - destruct (Qlt_le_dec max_wait_time (now w - monitoring_start_time c)) as [H|H].
    + exists TimedOut. eexists. rewrite poll_loop_timed_out by exact H.
      split; [reflexivity|]. split; [now right|]. simpl. apply Nat.le_add_r.
    + rewrite poll_loop_unfold, (poll_iteration_tick c k w H). cbv zeta.
      destruct (_ && _).
      * exists Converged. eexists. split; [reflexivity|]. split; [now left|].
        cbn [sent converged status_checked]. rewrite status_queries_app.
        cbn. lia.
      * match goal with
        | |- context [poll_loop (S n) c (S k) ?w1] =>
            destruct (IH (S k) w1) as (st & w' & Hrun & Hst & Hq)
        end.
        { cbn [now elapsed shown status_checked].
          specialize (Hdelay k). specialize (Hsleep k).
          rewrite Nat2Z.inj_succ, <- Z.add_1_r, inject_Z_plus in Hn.
          unfold check_interval in *. change (inject_Z 1) with 1%Q in Hn. lra. }
        exists st, w'. split; [exact Hrun|]. split; [exact Hst|].
        cbn [sent elapsed shown status_checked] in Hq.
        rewrite status_queries_app in Hq. cbn in Hq. lia.
Qed.

(** A punctual clock and status queries that take a tenth of a second:
    the clock of [Scenario.steady] runs forward. *)
Lemma steady_clock : clock_runs_forward Scenario.steady "default" "maud".
Proof.
  split; [|split].
  - intro r. apply Qle_refl.
  - intro k. apply Qle_refl.
  - intro k. unfold status_delay, Scenario.steady, Scenario.service.
    cbn [documents_get_info_list].
    destruct (nth k [(0, 0); (1, 2)] (2, 2)) as [indexed total].
    cbn [dt]. unfold Qle. simpl. lia.
Qed.

(** When no snapshot is fully indexed and the clock, over a status query
    and the sleep after it, never gets ahead, the loop uses up whatever
    passes it is given, with a status query in each. *)
Lemma poll_loop_stalls c :
  (forall k, fully_indexed (client c) (collection_name c) (selected_corpus c) k = false) ->
  (forall k, (status_delay (client c) k (collection_name c) (selected_corpus c)
              + (check_interval + oversleep (wall_clock (client c)) k) <= 0)%Q) ->
  forall fuel k w,
    (now w - monitoring_start_time c <= max_wait_time)%Q ->
    fst (poll_loop fuel c k w) = Ok None
    /\ status_queries (sent (snd (poll_loop fuel c k w))) = status_queries (sent w) + fuel.
Proof.
  intros Hnever Hstall fuel. induction fuel as [|fuel IH]; intros k w H.
  - split; [reflexivity|]. simpl. lia.
  - rewrite poll_loop_unfold, (poll_iteration_tick c k w H). cbv zeta.
    pose proof (Hnever k) as Hk. unfold fully_indexed in Hk. rewrite Hk.
    match goal with
    | |- context [poll_loop fuel c (S k) ?w1] => destruct (IH (S k) w1) as [Hrun Hq]
    end.
    + cbn [now elapsed shown status_checked].
      specialize (Hstall k). lra.
    + split; [exact Hrun|]. rewrite Hq.
      cbn [sent elapsed shown status_checked]. rewrite status_queries_app. cbn. lia.
Qed.

(** C6, as the code has it: the polling loop terminates when the wall
    clock is never set back.  A pass that finds more than [max_wait_time]
    elapsed since the loop started ends it with TimedOut, whatever the
    clock does; and when the clock runs forward, the loop ends within
    122 = max_wait_time / check_interval + 2 passes, Converged or
    TimedOut, at most 121 = max_wait_time / check_interval + 1 of which
    fetch a snapshot, whatever the snapshots are. *)
Theorem poll_loop_terminates :
  forall client coll corpus download_start_time download_time upload_time total_tokens w,
    clock_runs_forward client coll corpus ->
    (forall c fuel k w0,
        (max_wait_time < now w0 - monitoring_start_time c)%Q ->
        poll_loop (S fuel) c k w0
        = (Ok (Some TimedOut), shown w0 [Warning (TimeoutReached max_wait_time)]))
    /\ exists st w',
         monitor_indexing 122 client coll corpus
           download_start_time download_time upload_time total_tokens w
         = (Ok (Some st), w')
         /\ (st = Converged \/ st = TimedOut)
         /\ status_queries (sent w') <= status_queries (sent w) + 121
         /\ Z.of_nat 121 = (Qfloor (max_wait_time / check_interval) + 1)%Z
         /\ Z.of_nat 122 = (Qfloor (max_wait_time / check_interval) + 2)%Z.
Proof.
  intros client coll corpus dst dl ul tok w Hclock.
  split; [intros c fuel k w0; apply poll_loop_timed_out|].
  unfold monitor_indexing, bind, time_time, elapse.
  match goal with
  | |- context [poll_loop 122 ?c 0 ?w1] =>
      destruct (poll_loop_bounded c Hclock 121 0 w1) as (st & w' & Hrun & Hst & Hq)
  end.
  - destruct Hclock as (Hpause & _ & _). specialize (Hpause FirstPass).
    cbn [monitoring_start_time now]. unfold max_wait_time, check_interval.
    change (inject_Z (Z.of_nat 121)) with 121%Q. lra.
  - exists st, w'. repeat split; try assumption.
Qed.

Lemma poll_loop_terminates_witness :
  (forall c fuel k w0,
      (max_wait_time < now w0 - monitoring_start_time c)%Q ->
      poll_loop (S fuel) c k w0
      = (Ok (Some TimedOut), shown w0 [Warning (TimeoutReached max_wait_time)]))
  /\ exists st w',
       monitor_indexing 122 Scenario.steady "default" "maud" 0 2 3 6 (empty_world 5)
       = (Ok (Some st), w')
       /\ (st = Converged \/ st = TimedOut)
       /\ status_queries (sent w') <= status_queries (sent (empty_world 5)) + 121
       /\ Z.of_nat 121 = (Qfloor (max_wait_time / check_interval) + 1)%Z
       /\ Z.of_nat 122 = (Qfloor (max_wait_time / check_interval) + 2)%Z.
Proof.
  apply (poll_loop_terminates Scenario.steady "default" "maud" 0 2 3 6 (empty_world 5)).
  exact steady_clock.
Defined.

(** C6 as stated fails, twice over.  When the system clock is set back
    by five seconds during every sleep and the index never finishes, no
    pass ever finds the time used up: the loop ends with no number of
    passes, and has made 1000 status queries after 1000 of them.  And
    with a punctual clock and status queries that take no time, the
    passes start 0, 5, ..., 600 seconds after the loop, so that 121 of
    them keep polling and only the 122nd finds more than 600 seconds
    elapsed: 121 passes do not end the loop. *)
Lemma poll_loop_can_run_forever :
  (~ exists fuel st w',
       monitor_indexing fuel Scenario.set_back_asleep "default" "maud" 0 2 3 6
         (empty_world 5)
       = (Ok (Some st), w'))
  /\ status_queries
       (sent (snd (monitor_indexing 1000 Scenario.set_back_asleep "default" "maud" 0 2 3 6
                     (empty_world 5))))
     = 1000
  /\ fst (monitor_indexing 121 Scenario.never_indexed "default" "maud" 0 2 3 6
            (empty_world 5))
     = Ok None
  /\ fst (monitor_indexing 122 Scenario.never_indexed "default" "maud" 0 2 3 6
            (empty_world 5))
     = Ok (Some TimedOut)
  /\ status_queries
       (sent (snd (monitor_indexing 122 Scenario.never_indexed "default" "maud" 0 2 3 6
                     (empty_world 5))))
     = 121.
Proof.
  assert (Hstalls : forall fuel,
            fst (monitor_indexing fuel Scenario.set_back_asleep "default" "maud" 0 2 3 6
                   (empty_world 5))
            = Ok None
            /\ status_queries
                 (sent (snd (monitor_indexing fuel Scenario.set_back_asleep "default" "maud"
                               0 2 3 6 (empty_world 5))))
               = fuel).
  { intro fuel. unfold monitor_indexing, bind, time_time, elapse.
    match goal with
    | |- context [poll_loop fuel ?c 0 ?w1] =>
        destruct (poll_loop_stalls c) with (fuel := fuel) (k := 0) (w := w1) as [Hrun Hq]
    end.
    - intro k. reflexivity.
    - intro k. vm_compute. discriminate.
    - vm_compute. discriminate.
    - split; [exact Hrun|]. rewrite Hq. reflexivity. }
  split.
  - intros (fuel & st & w' & Hrun). destruct (Hstalls fuel) as [Hnone _].
    rewrite Hrun in Hnone. discriminate Hnone.
  - split; [exact (proj2 (Hstalls 1000))|].
    split; [vm_compute; reflexivity|]. split; vm_compute; reflexivity.
Qed.

(** ** The progress shown by the loop *)

Lemma reported_progress_app a b :
  reported_progress (a ++ b) = (reported_progress a ++ reported_progress b)%list.
Proof.
  induction a as [|ev a IH]; [reflexivity|].
  destruct ev as [m|m|m|m|m|q]; simpl; try exact IH.
  destruct m; simpl; try exact IH. now rewrite IH.
Qed.

Lemma status_checked_page client k coll corpus w :
  exists evs,
    page (status_checked client k coll corpus w) = (page w ++ evs)%list
    /\ reported_progress evs = [].
Proof.
  unfold status_checked; simpl.
  destruct (outcome _) as [e|documents].
  - exists [Warning (CouldNotCheckStatus e)]. now split.
  - exists []. now rewrite app_nil_r.
Qed.

Lemma reported_tick_report indexed total t :
  reported_progress (tick_report indexed total t)
  = if 0 <? total then [ratio indexed total] else [].
Proof. unfold tick_report. destruct (0 <? total); reflexivity. Qed.

(** The loop, started at pass [k], keeps polling for some [n] passes,
    none of which meets a fully indexed snapshot, and shows their
    fractions in order; it makes one status query in each of them, and
    one more when it converges, which it does on pass [k + n]. *)
Lemma poll_loop_progress c :
  forall fuel k w r w',
    poll_loop fuel c k w = (r, w') ->
    exists evs n,
      page w' = (page w ++ evs)%list
      /\ reported_progress evs
         = flat_map (tick_fraction (client c) (collection_name c) (selected_corpus c))
                    (seq k n)
      /\ (forall j, j < n ->
            fully_indexed (client c) (collection_name c) (selected_corpus c) (k + j) = false)
      /\ (r = Ok (Some Converged) ->
          fully_indexed (client c) (collection_name c) (selected_corpus c) (k + n) = true
          /\ status_queries (sent w') = status_queries (sent w) + S n)
      /\ (r <> Ok (Some Converged) ->
          status_queries (sent w') = status_queries (sent w) + n).
Proof.
  intros fuel. induction fuel as [|fuel IH]; intros k w r w' Hrun.
  - injection Hrun as <- <-. exists [], 0. rewrite app_nil_r.
    split; [reflexivity|]. split; [reflexivity|]. split; [intros j Hj; lia|].
    split; [discriminate|]. intros _. lia.
  - rewrite poll_loop_unfold in Hrun.
    destruct (Qlt_le_dec max_wait_time (now w - monitoring_start_time c)) as [H|H].
    + rewrite (poll_iteration_timed_out c k w H) in Hrun. injection Hrun as <- <-.
      exists [Warning (TimeoutReached max_wait_time)], 0.
      split; [reflexivity|]. split; [reflexivity|]. split; [intros j Hj; lia|].
      split; [discriminate|]. intros _. cbn [sent shown]. lia.
    + rewrite (poll_iteration_tick c k w H) in Hrun. cbv zeta in Hrun.
      destruct (status_checked_page (client c) k (collection_name c) (selected_corpus c) w)
        as (evs1 & Hpage1 & Hrep1).
      destruct (_ && _) eqn:E.
      * injection Hrun as <- <-.
        exists (evs1 ++ [Success (IndexingComplete
                                    (snd (snapshot (client c) k (collection_name c)
                                            (selected_corpus c))))])%list.
        exists 0.
        cbn [page converged]. rewrite Hpage1, <- app_assoc.
        split; [reflexivity|].
        rewrite reported_progress_app, Hrep1.
        split; [reflexivity|]. split; [intros j Hj; lia|].
        split; [|intro Hne; now contradiction Hne].
        intros _. rewrite Nat.add_0_r. split; [exact E|].
        cbn [sent converged status_checked]. rewrite status_queries_app. cbn. lia.
      * apply IH in Hrun.
        destruct Hrun as (evs2 & n & Hpage2 & Hexact & Hnot & Hconv & Hother).
        cbn [page elapsed shown] in Hpage2.
        rewrite Hpage1, <- !app_assoc in Hpage2.
        cbn [sent elapsed shown status_checked] in Hconv, Hother.
        rewrite status_queries_app in Hconv, Hother.
        eexists. exists (S n). split; [exact Hpage2|].
        rewrite !reported_progress_app, Hrep1, reported_tick_report.
        cbn [app seq flat_map]. unfold tick_fraction at 1. rewrite <- Hexact.
        split; [reflexivity|]. split; [|split].
        -- intros [|j] Hj.
           ++ rewrite Nat.add_0_r. exact E.
           ++ replace (k + S j) with (S k + j) by lia. apply Hnot. lia.
        -- intro Hr. destruct (Hconv Hr) as [Hfull Hq].
           replace (k + S n) with (S k + n) by lia. split; [exact Hfull|].
           rewrite Hq. cbn. lia.
        -- intro Hr. rewrite (Hother Hr). cbn. lia.
Qed.

(** The fractions of the snapshots of successive ticks never go down
    when those of the snapshots do not. *)
Lemma snapshot_fractions_sorted client coll corpus :
  fractions_non_decreasing client coll corpus ->
  forall n k, non_decreasing (flat_map (tick_fraction client coll corpus) (seq k n)).
Proof.
  intros Hmono n. induction n as [|n IH]; intro k; [exact I|].
  cbn [seq flat_map]. unfold tick_fraction at 1.
  destruct (0 <? snd (snapshot client k coll corpus)) eqn:Ek; [|exact (IH (S k))].
  apply Nat.ltb_lt in Ek. cbn [app non_decreasing]. split; [|exact (IH (S k))].
  apply Forall_forall. intros y Hy.
  apply in_flat_map in Hy. destruct Hy as (j & Hj & Hy).
  apply in_seq in Hj. unfold tick_fraction in Hy.
  destruct (0 <? snd (snapshot client j coll corpus)) eqn:Ej; [|destruct Hy].
  apply Nat.ltb_lt in Ej. destruct Hy as [<-|[]].
  apply Hmono; [lia|exact Ek|exact Ej].
Qed.

(** ** The statistics stored at convergence *)


(** C7, as the code has it: the fractions the loop shows are, in the
    order of the ticks, those of the snapshots fetched on the ticks
    before the one that ends the run that saw documents: the run polls
    for some n ticks, makes a status query in each (and one more when it
    converges), none of these n snapshots is fully indexed, a run that
    converges does so on tick n, and what is shown are the fractions of
    ticks 0 to n - 1; so within one run the fractions shown never go
    down provided those of the fetched snapshots never go down. *)
Theorem reported_progress_follows_snapshots :
  forall fuel svc coll corpus t_start t_download t_upload n_tokens w r w',
    monitor_indexing fuel svc coll corpus t_start t_download t_upload n_tokens w = (r, w') ->
    exists evs n,
      page w' = (page w ++ evs)%list
      /\ reported_progress evs = flat_map (tick_fraction svc coll corpus) (seq 0 n)
      /\ (forall j, j < n -> fully_indexed svc coll corpus j = false)
      /\ (r = Ok (Some Converged) ->
          fully_indexed svc coll corpus n = true
          /\ status_queries (sent w') = status_queries (sent w) + S n)
      /\ (r <> Ok (Some Converged) ->
          status_queries (sent w') = status_queries (sent w) + n)
      /\ (fractions_non_decreasing svc coll corpus ->
          non_decreasing (reported_progress evs)).
Proof.
  intros fuel svc coll corpus dst dl ul tok w r w' Hrun.
  unfold monitor_indexing, bind, time_time, elapse in Hrun.
  apply poll_loop_progress in Hrun.
  destruct Hrun as (evs & n & Hpage & Hexact & Hnot & Hconv & Hother).
  cbn [client collection_name selected_corpus page sent] in *.
  exists evs, n. split; [exact Hpage|]. split; [exact Hexact|].
  split; [exact Hnot|]. split; [exact Hconv|]. split; [exact Hother|].
  intro Hmono. rewrite Hexact. now apply snapshot_fractions_sorted.
Qed.

Lemma reported_progress_follows_snapshots_witness :
  let r := monitor_indexing 10 Scenario.rising "default" "maud" 0 2 3 6 (empty_world 5) in
  exists evs n,
    page (snd r) = (page (empty_world 5) ++ evs)%list
    /\ reported_progress evs
       = flat_map (tick_fraction Scenario.rising "default" "maud") (seq 0 n)
    /\ (forall j, j < n -> fully_indexed Scenario.rising "default" "maud" j = false)
    /\ (fst r = Ok (Some Converged) ->
        fully_indexed Scenario.rising "default" "maud" n = true
        /\ status_queries (sent (snd r)) = status_queries (sent (empty_world 5)) + S n)
    /\ (fst r <> Ok (Some Converged) ->
        status_queries (sent (snd r)) = status_queries (sent (empty_world 5)) + n)
    /\ (fractions_non_decreasing Scenario.rising "default" "maud" ->
        non_decreasing (reported_progress evs)).
Proof.
  cbv zeta.
  apply (reported_progress_follows_snapshots 10 Scenario.rising "default" "maud" 0 2 3 6
           (empty_world 5)
           (fst (monitor_indexing 10 Scenario.rising "default" "maud" 0 2 3 6 (empty_world 5)))
           (snd (monitor_indexing 10 Scenario.rising "default" "maud" 0 2 3 6 (empty_world 5)))).
  vm_compute. reflexivity.
Defined.

(** In that run the index has one more of four documents at each tick:
    the first tick sees none and shows no fraction, the next three show
    1/4, 2/4 and 3/4, and the fifth converges. *)
Example rising_run_reports_three_fractions :
  let r := monitor_indexing 10 Scenario.rising "default" "maud" 0 2 3 6 (empty_world 5) in
  fst r = Ok (Some Converged)
  /\ reported_progress (page (snd r)) = [ratio 1 4; ratio 2 4; ratio 3 4]
  /\ status_queries (sent (snd r)) = 5
  /\ fractions_non_decreasing Scenario.rising "default" "maud".
Proof.
  cbv zeta. split; [vm_compute; reflexivity|]. split; [vm_compute; reflexivity|].
  split; [vm_compute; reflexivity|].
  intros j k Hjk.
  destruct j as [|[|[|[|[|j]]]]]; destruct k as [|[|[|[|[|k]]]]]; try lia;
    unfold snapshot, Scenario.rising, Scenario.service; cbn;
    intros; try lia; unfold Qle; simpl; lia.
Qed.

(** C7 as stated fails: when more documents become visible between two
    ticks (1 of 2 indexed, then 1 of 4, then 4 of 4) the run converges
    and the fractions shown go from 1/2 down to 1/4. *)
Lemma reported_progress_can_decrease :
  let r := monitor_indexing 10 Scenario.growing "default" "maud" 0 2 3 6 (empty_world 5) in
  fst r = Ok (Some Converged)
  /\ reported_progress (page (snd r)) = [ratio 1 2; ratio 1 4]
  /\ ~ non_decreasing (reported_progress (page (snd r))).
Proof.
  cbv zeta. split; [vm_compute; reflexivity|].
  assert (E : reported_progress
                (page (snd (monitor_indexing 10 Scenario.growing "default" "maud" 0 2 3 6
                              (empty_world 5))))
              = [ratio 1 2; ratio 1 4]) by (vm_compute; reflexivity).
  rewrite E. split; [reflexivity|].
  intros [Hhead _]. apply Forall_inv in Hhead. vm_compute in Hhead. now apply Hhead.
Qed.

(* ===================================================================== *)
(** * The whole branch: the durations *)
(* ===================================================================== *)








(** The same happens when the clock is set back between the end of the
    download and the start of the upload, with status queries and sleeps
    during which it runs forward: the total time, read on the clock
    after it was set back, is then five seconds short. *)
Example set_back_between_phases_is_stored :
  let r := download_and_index 10 Scenario.two_plain Scenario.set_back_between_phases
             "default" "maud" (empty_world 100) in
  fst r = Ok (Some Converged)
  /\ (forall k, (0 <= status_delay Scenario.set_back_between_phases k "default" "maud")%Q)
  /\ (forall k, (0 <= oversleep (wall_clock Scenario.set_back_between_phases) k)%Q)
  /\ exists ps, session_performance_stats (snd r) = Some ps
                /\ (indexing_time ps < 0)%Q.
Proof.
  cbv zeta. split; [vm_compute; reflexivity|].
  split; [intro k; vm_compute; discriminate|].
  split; [intro k; vm_compute; discriminate|].
  eexists. split; [vm_compute; reflexivity|]. vm_compute. reflexivity.
Qed.

(* ===================================================================== *)
(** * Strings *)
(* ===================================================================== *)

Lemma len_lower s : Py.len (Py.lower s) = Py.len s.
Proof.
  unfold Py.len. induction s as [|c s IH]; simpl; [reflexivity|]. now rewrite IH.
Qed.

Lemma take_drop n s : Py.take n s ++ Py.drop n s = s.
Proof.
  revert s. induction n as [|n IH]; intros [|c s]; simpl; try reflexivity.
  now rewrite IH.
Qed.

Lemma len_drop n s : Py.len (Py.drop n s) = Py.len s - n.
Proof.
  unfold Py.len. revert s. induction n as [|n IH]; intros [|c s]; simpl; try reflexivity.
  apply IH.
Qed.

Lemma len_take n s : Py.len (Py.take n s) = Nat.min n (Py.len s).
Proof.
  unfold Py.len. revert s. induction n as [|n IH]; intros [|c s]; simpl; try reflexivity.
  now rewrite IH.
Qed.

Lemma lower_take n s : Py.lower (Py.take n s) = Py.take n (Py.lower s).
Proof.
  revert s. induction n as [|n IH]; intros [|c s]; simpl; try reflexivity.
  now rewrite IH.
Qed.

Lemma lower_drop n s : Py.lower (Py.drop n s) = Py.drop n (Py.lower s).
Proof.
  revert s. induction n as [|n IH]; intros [|c s]; simpl; try reflexivity.
  apply IH.
Qed.

Lemma prefix_nil s : prefix EmptyString s = true.
Proof. now destruct s. Qed.

Lemma prefix_cons a sub b s :
  prefix (String a sub) (String b s) = true <-> a = b /\ prefix sub s = true.
Proof.
  simpl. destruct (ascii_dec a b) as [->|Hne].
  - tauto.
  - split; [discriminate|]. intros [E _]. contradiction.
Qed.

(** A prefix is what [take] gives, and it is no longer than the string. *)
Lemma prefix_take sub s :
  prefix sub s = true -> Py.take (Py.len sub) s = sub /\ Py.len sub <= Py.len s.
Proof.
  unfold Py.len. revert s. induction sub as [|a sub IH]; intros s H.
  - simpl. split; [now destruct s|lia].
  - destruct s as [|b s]; [discriminate H|].
    apply prefix_cons in H. destruct H as [-> H].
    destruct (IH s H) as [E L]. simpl. rewrite E. split; [reflexivity|lia].
Qed.

(** [find] returns the first place where [sub] starts, when there is one. *)
Lemma find_first sub s :
  Py.contains sub s = true ->
  exists n,
    Py.find s sub = Z.of_nat n
    /\ prefix sub (Py.drop n s) = true
    /\ forall i, i < n -> prefix sub (Py.drop i s) = false.
Proof.
  induction s as [|c s IH]; intro H.
  - cbn [Py.contains] in H. rewrite orb_false_r in H.
    exists 0. cbn [Py.find]. rewrite H. repeat split; [exact H|]. intros i Hi. lia.
  - cbn [Py.contains] in H. destruct (prefix sub (String c s)) eqn:E.
    + exists 0. cbn [Py.find]. rewrite E. repeat split; [exact E|]. intros i Hi. lia.
    + simpl in H. destruct (IH H) as (n & Hfind & Hpre & Hfirst).
      exists (S n). cbn [Py.find]. rewrite E, Hfind.
      destruct (Z.of_nat n =? -1)%Z eqn:En; [apply Z.eqb_eq in En; lia|].
      split; [lia|]. split; [exact Hpre|].
      intros [|i] Hi; [exact E|]. apply Hfirst. lia.
Qed.

Lemma contains_false_cons sub c s :
  Py.contains sub (String c s) = false ->
  prefix sub (String c s) = false /\ Py.contains sub s = false.
Proof. cbn [Py.contains]. apply orb_false_iff. Qed.

Lemma bound_of_nat n m : Py.bound (Z.of_nat n) m = Nat.min n m.
Proof.
  unfold Py.bound. destruct (Z.of_nat n <? 0)%Z eqn:E.
  - apply Z.ltb_lt in E. lia.
  - now rewrite Nat2Z.id.
Qed.

(* ===================================================================== *)
(** * Highlighting *)
(* ===================================================================== *)

(** On a content in which the answer occurs, the highlight is put around
    the first occurrence, which starts at the index [find] gives. *)
Lemma highlight_at_found_index content answer :
  Py.contains (Py.lower answer) (Py.lower content) = true ->
  exists start,
    Py.find (Py.lower content) (Py.lower answer) = Z.of_nat start
    /\ first_occurrence content answer start
    /\ highlight_answer_in_content content answer = marked content start (Py.len answer).
Proof.
  intro H. unfold highlight_answer_in_content. rewrite H.
  destruct (find_first _ _ H) as (n & Hfind & Hpre & Hfirst).
  rewrite Hfind. cbv zeta.
  destruct (Z.of_nat n =? -1)%Z eqn:En; [apply Z.eqb_eq in En; lia|]. cbn [negb].
  destruct (prefix_take _ _ Hpre) as [Htake Hlen].
  rewrite len_lower in Htake. rewrite len_lower, len_drop, len_lower in Hlen.
  assert (Hpos : Py.len answer = 0 \/ n + Py.len answer <= Py.len content).
  { lia. }
  assert (Hn : n <= Py.len content \/ Py.len content < n) by lia.
  exists (Nat.min n (Py.len content)).
  destruct Hn as [Hn|Hn].
  - rewrite Nat.min_l by exact Hn.
    assert (Hend : n + Py.len answer <= Py.len content) by lia.
    split; [reflexivity|]. split.
    + split; [|split; [exact Hend|exact Hfirst]].
      now rewrite lower_take, lower_drop.
    + unfold marked, Py.slice_to, Py.slice, Py.slice_from.
      rewrite <- Nat2Z.inj_add, !bound_of_nat.
      rewrite (Nat.min_l n) by exact Hn. rewrite Nat.min_l by exact Hend.
      replace (n + Py.len answer - n) with (Py.len answer) by lia.
      reflexivity.
  - exfalso. assert (E0 : Py.len answer = 0) by lia.
    clear Hpos. 
    assert (Hlast : prefix (Py.lower answer) (Py.drop (Py.len content) (Py.lower content)) = false)
      by (apply Hfirst; exact Hn).
    destruct answer; [|discriminate E0]. simpl in Hlast. 
    now rewrite prefix_nil in Hlast.
Qed.








Example highlight_hello_world :
  highlight_answer_in_content "Hello World" "WORLD"
  = "Hello " ++ MARK_OPEN ++ "World" ++ MARK_CLOSE.
Proof. vm_compute. reflexivity. Qed.


(* ===================================================================== *)
(** * The upload loop *)
(* ===================================================================== *)

Lemma count_cons {A : Type} (p : A -> bool) x l :
  count p (x :: l) = (if p x then 1 else 0) + count p l.
Proof. unfold count. simpl. now destruct (p x). Qed.

(** One document: the counters move by the kind of the reply. *)
Lemma upload_document_counts client coll n i doc s w :
  exists s' w',
    upload_document client coll n i doc s w = (Ok s', w')
    /\ successful_docs s'
       = successful_docs s
         + (if is_fresh (kind_of (documents_add client i coll (id doc ++ ".txt") (content doc)))
            then 1 else 0)
    /\ failed_docs s'
       = failed_docs s
         + (if is_failed (kind_of (documents_add client i coll (id doc ++ ".txt") (content doc)))
            then 1 else 0).
Proof.
  unfold upload_document, kind_of, is_conflict.
  unfold bind, try_except, call, receive, show, st_warning, show, ret.
  cbn [now page sent session_performance_stats session_selected_corpus].
  destruct (outcome (documents_add client i coll (id doc ++ ".txt") (content doc)))
    as [e|[]].
  - destruct (Py.contains "409" (str e)); cbn [negb andb orb].
    + do 2 eexists. split; [reflexivity|]. cbn. lia.
    + destruct (Py.contains "already exists" (Py.lower (str e))); cbn [negb andb orb].
      * do 2 eexists. split; [reflexivity|]. cbn. lia.
      * do 2 eexists. split; [reflexivity|]. cbn. lia.
  - do 2 eexists. split; [reflexivity|]. cbn. lia.
Qed.

(** The whole loop: as many successes as fresh replies, as many failures
    as replies that are neither fresh nor conflicts. *)
Lemma upload_loop_counts client coll n :
  forall documents i s w,
  exists s' w',
    for_enumerate (upload_document client coll n) i documents s w = (Ok s', w')
    /\ successful_docs s'
       = successful_docs s + count is_fresh (add_kinds client coll i documents)
    /\ failed_docs s'
       = failed_docs s + count is_failed (add_kinds client coll i documents).
Proof.
  induction documents as [|doc documents IH]; intros i s w.
  - exists s, w. cbn. split; [reflexivity|]. unfold count. simpl. lia.
  - cbn [for_enumerate add_kinds]. unfold bind at 1.
    destruct (upload_document_counts client coll n i doc s w) as (s1 & w1 & -> & Hs1 & Hf1).
    destruct (IH (S i) s1 w1) as (s' & w' & Hrun & Hs' & Hf').
    exists s', w'. split; [exact Hrun|].
    rewrite !count_cons. lia.
Qed.

Lemma add_kinds_length client coll :
  forall documents i, List.length (add_kinds client coll i documents) = List.length documents.
Proof.
  induction documents as [|d documents IH]; intro i; simpl; [reflexivity|].
  now rewrite IH.
Qed.

Lemma kinds_partition kinds :
  count is_fresh kinds + count is_conflicting kinds + count is_failed kinds
  = List.length kinds.
Proof.
  induction kinds as [|k kinds IH]; [reflexivity|].
  rewrite !count_cons. destruct k; simpl; lia.
Qed.

Lemma no_failed kinds :
  Forall (fun k => k <> Failed) kinds -> count is_failed kinds = 0.
Proof.
  induction 1 as [|k kinds Hk _ IH]; [reflexivity|].
  rewrite count_cons, IH. destruct k; [reflexivity|reflexivity|contradiction].
Qed.

(** C1, as the code has it: when every submission returns or raises with
    a conflict message, the upload ends with no failure counted and with
    as many successes counted as submissions returned; a conflict is
    counted neither as a failure nor as a success, so the successes and
    the conflicts together are all the documents. *)
Theorem conflicts_are_not_failures :
  forall client coll documents w,
    Forall (fun k => k <> Failed) (add_kinds client coll 0 documents) ->
    exists s w',
      upload_documents client coll documents w = (Ok s, w')
      /\ failed_docs s = 0
      /\ successful_docs s = count is_fresh (add_kinds client coll 0 documents)
      /\ successful_docs s + count is_conflicting (add_kinds client coll 0 documents)
         = List.length documents.
Proof.
  intros client coll documents w Hkinds.
  unfold upload_documents.
  destruct (upload_loop_counts client coll (List.length documents) documents 0
              {| tokens := 0; successful_docs := 0; failed_docs := 0 |} w)
    as (s & w' & Hrun & Hs & Hf).
  exists s, w'. split; [exact Hrun|].
  cbn [successful_docs failed_docs] in Hs, Hf.
  pose proof (kinds_partition (add_kinds client coll 0 documents)) as Hpart.
  rewrite add_kinds_length in Hpart.
  rewrite (no_failed _ Hkinds) in *. lia.
Qed.

Lemma conflicts_are_not_failures_witness :
  exists s w',
    upload_documents (Scenario.service Scenario.conflict_on_second 0 [] (3, 3)) "default"
      Scenario.three_documents (empty_world 0) = (Ok s, w')
    /\ failed_docs s = 0
    /\ successful_docs s
       = count is_fresh
           (add_kinds (Scenario.service Scenario.conflict_on_second 0 [] (3, 3)) "default" 0
              Scenario.three_documents)
    /\ successful_docs s
       + count is_conflicting
           (add_kinds (Scenario.service Scenario.conflict_on_second 0 [] (3, 3)) "default" 0
              Scenario.three_documents)
       = List.length Scenario.three_documents.
Proof.
  apply (conflicts_are_not_failures
           (Scenario.service Scenario.conflict_on_second 0 [] (3, 3)) "default"
           Scenario.three_documents (empty_world 0)).
  vm_compute. repeat constructor; discriminate.
Defined.

(** C1 as stated fails: of three documents the second meets a conflict
    and the others are accepted; no failure is counted, but the successes
    counted are 2, not the 3 documents of the catalog. *)
Lemma conflict_is_not_counted_as_success :
  let client := Scenario.service Scenario.conflict_on_second 0 [] (3, 3) in
  let r := upload_documents client "default" Scenario.three_documents (empty_world 0) in
  add_kinds client "default" 0 Scenario.three_documents = [Fresh; Conflict; Fresh]
  /\ fst r = Ok {| tokens := 6; successful_docs := 2; failed_docs := 0 |}
  /\ 2 <> List.length Scenario.three_documents.
Proof.
  cbv zeta. split; [vm_compute; reflexivity|]. split; [vm_compute; reflexivity|].
  simpl. lia.
Qed.

(* ===================================================================== *)
(** * Extraction *)
(* ===================================================================== *)

(** One file: its document, if any, goes to the end of the catalog and
    its warning, if any, to the page. *)
Lemma read_document_eq corpus f documents w :
  read_document corpus f documents w
  = (Ok (documents ++ extracted corpus f)%list, shown w (read_warning f)).
Proof.
  unfold read_document, extracted, read_warning.
  destruct (included (name f)).
  - unfold try_except, bind, open_read, raise, st_warning, show, ret.
    destruct (read f) as [e|text].
    + rewrite app_nil_r. reflexivity.
    + destruct (Py.truthy (Py.strip text)); [|rewrite app_nil_r]; now rewrite shown_nil.
  - unfold ret. now rewrite app_nil_r, shown_nil.
Qed.

Lemma files_loop corpus :
  forall fs i documents w,
    for_enumerate (fun _ f documents => read_document corpus f documents) i fs documents w
    = (Ok (documents ++ flat_map (extracted corpus) fs)%list,
       shown w (flat_map read_warning fs)).
Proof.
  induction fs as [|f fs IH]; intros i documents w.
  - cbn. now rewrite app_nil_r, shown_nil.
  - cbn [for_enumerate flat_map]. unfold bind. rewrite read_document_eq, IH.
    now rewrite shown_shown, <- app_assoc.
Qed.

Lemma walk_loop corpus :
  forall walk i documents w,
    for_enumerate
      (fun _ d documents =>
         for_enumerate (fun _ f documents => read_document corpus f documents)
                       0 (files d) documents)
      i walk documents w
    = (Ok (documents ++ flat_map (extracted corpus) (all_files walk))%list,
       shown w (flat_map read_warning (all_files walk))).
Proof.
  unfold all_files.
  induction walk as [|d walk IH]; intros i documents w.
  - cbn. now rewrite app_nil_r, shown_nil.
  - cbn [for_enumerate flat_map]. unfold bind. rewrite files_loop, IH.
    now rewrite shown_shown, <- app_assoc, !flat_map_app.
Qed.

(** On a valid archive the download returns the documents of the files
    that can be read and are not blank, in the order of the walk, and
    shows the warnings of the files that cannot be read. *)
Lemma download_corpus_valid get corpus w resp walk :
  outcome get = inr resp ->
  valid_archive resp walk ->
  download_corpus get corpus w
  = (Ok (flat_map (extracted corpus) (all_files walk)),
     shown (elapsed w (dt get)) (flat_map read_warning (all_files walk))).
Proof.
  intros Hget [Hstatus Hbody].
  unfold download_corpus. unfold bind at 1. unfold receive. rewrite Hget.
  unfold bind at 1. unfold raise_for_status.
  assert (E : (400 <=? status_code resp) && (status_code resp <? 600) = false).
  { apply andb_false_iff. destruct Hstatus as [H|H].
    - left. apply Nat.leb_gt. exact H.
    - right. apply Nat.ltb_ge. exact H. }
  rewrite E. unfold ret at 1. unfold bind at 1. unfold extract_and_walk. rewrite Hbody.
  unfold ret at 1. rewrite walk_loop. reflexivity.
Qed.

Lemma extracted_length corpus fs :
  List.length (flat_map (extracted corpus) fs) = count readable fs.
Proof.
  induction fs as [|f fs IH]; [reflexivity|].
  rewrite count_cons. cbn [flat_map]. rewrite length_app, IH. f_equal.
  unfold extracted, readable. destruct (included (name f)); [|reflexivity].
  destruct (read f) as [e|text]; [reflexivity|].
  now destruct (Py.truthy (Py.strip text)).
Qed.

Lemma read_warning_length fs :
  List.length (flat_map read_warning fs) = count undecodable fs.
Proof.
  induction fs as [|f fs IH]; [reflexivity|].
  rewrite count_cons. cbn [flat_map]. rewrite length_app, IH. f_equal.
  unfold read_warning, undecodable. destruct (included (name f)); [|reflexivity].
  now destruct (read f).
Qed.

Lemma read_warning_warnings fs :
  Forall (fun ev => is_warning ev = true) (flat_map read_warning fs).
Proof.
  induction fs as [|f fs IH]; [constructor|].
  cbn [flat_map]. apply Forall_app. split; [|exact IH].
  unfold read_warning. destruct (included (name f)); [|constructor].
  destruct (read f); repeat constructor.
Qed.

(** C8, as the code has it: on a valid archive the extraction never
    raises because of a file; the catalog holds one document for each
    included file that decodes to a text that is not blank, in the order
    of the walk; the page gets one warning for each included file that
    fails to decode, and nothing for a file that is blank. *)
Theorem unreadable_files_are_skipped :
  forall get corpus w resp walk,
    outcome get = inr resp ->
    valid_archive resp walk ->
    exists documents w',
      download_corpus get corpus w = (Ok documents, w')
      /\ documents = flat_map (extracted corpus) (all_files walk)
      /\ List.length documents = count readable (all_files walk)
      /\ page w' = (page w ++ flat_map read_warning (all_files walk))%list
      /\ Forall (fun ev => is_warning ev = true) (flat_map read_warning (all_files walk))
      /\ List.length (flat_map read_warning (all_files walk))
         = count undecodable (all_files walk).
Proof.
  intros get corpus w resp walk Hget Hvalid.
  rewrite (download_corpus_valid get corpus w resp walk Hget Hvalid).
  do 2 eexists. split; [reflexivity|]. split; [reflexivity|].
  split; [apply extracted_length|]. split; [reflexivity|].
  split; [apply read_warning_warnings|apply read_warning_length].
Qed.

Lemma unreadable_files_are_skipped_witness :
  let fs := [Scenario.text_file "good.txt" "hello world"; Scenario.undecodable_file "bad.txt"] in
  exists documents w',
    download_corpus (Scenario.archive_of fs) "maud" (empty_world 0) = (Ok documents, w')
    /\ documents = flat_map (extracted "maud") (all_files (Scenario.walk_of fs))
    /\ List.length documents = count readable (all_files (Scenario.walk_of fs))
    /\ page w'
       = (page (empty_world 0) ++ flat_map read_warning (all_files (Scenario.walk_of fs)))%list
    /\ Forall (fun ev => is_warning ev = true)
         (flat_map read_warning (all_files (Scenario.walk_of fs)))
    /\ List.length (flat_map read_warning (all_files (Scenario.walk_of fs)))
       = count undecodable (all_files (Scenario.walk_of fs)).
Proof.
  apply (unreadable_files_are_skipped
           (Scenario.archive_of
              [Scenario.text_file "good.txt" "hello world";
               Scenario.undecodable_file "bad.txt"])
           "maud" (empty_world 0)
           (Scenario.response_of
              [Scenario.text_file "good.txt" "hello world";
               Scenario.undecodable_file "bad.txt"])).
  - reflexivity.
  - split; [left; simpl; lia|reflexivity].
Defined.

(** The scenario of two documents of which one fails to decode: a catalog
    of one document and one warning. *)
Example one_of_two_fails_to_decode :
  let r := download_corpus Scenario.one_undecodable "maud" (empty_world 0) in
  (exists documents, fst r = Ok documents
                     /\ map filename documents = ["good.txt"])
  /\ page (snd r)
     = [Warning (CouldNotRead "bad.txt"
                   (Exception "'utf-8' codec can't decode byte 0xff"))].
Proof.
  cbv zeta. split.
  - eexists. split; vm_compute; reflexivity.
  - vm_compute. reflexivity.
Qed.

(** C8 as stated fails: a file that is blank is skipped without any
    warning. *)
Lemma blank_file_is_skipped_silently :
  let r := download_corpus Scenario.one_blank "maud" (empty_world 0) in
  blank (Scenario.text_file "blank.txt" "   ") = true
  /\ fst r = Ok []
  /\ page (snd r) = [].
Proof.
  cbv zeta. repeat split; vm_compute; reflexivity.
Qed.

(* ===================================================================== *)
(** * Document identifiers *)
(* ===================================================================== *)

Lemma string_app_inv_head a x y : a ++ x = a ++ y -> x = y.
Proof.
  induction a as [|c a IH]; simpl; intro H; [exact H|].
  injection H as H. now apply IH.
Qed.

(** A string that ends with [suffix] is its beginning followed by
    [suffix]. *)
Lemma endswith_split s suffix :
  Py.endswith s suffix = true ->
  s = Py.take (Py.len s - Py.len suffix) s ++ suffix.
Proof.
  unfold Py.endswith. intro H. apply andb_true_iff in H. destruct H as [_ H].
  apply String.eqb_eq in H.
  pose proof (take_drop (Py.len s - Py.len suffix) s) as E.
  rewrite H in E. now symmetry.
Qed.

(** Replacing a string that does not occur changes nothing. *)
Lemma replace_absent old new s :
  Py.contains old s = false -> Py.replace s old new = s.
Proof.
  unfold Py.replace. induction s as [|c s IH]; intro H; [reflexivity|].
  apply contains_false_cons in H. destruct H as [Hpre Hrest].
  cbn [Py.replace_from]. rewrite Hpre. now rewrite IH.
Qed.

(** [prefix] with the comparison of characters as a boolean. *)
Lemma prefix_cons_eqb a sub b s :
  prefix (String a sub) (String b s) = Ascii.eqb a b && prefix sub s.
Proof.
  cbn [prefix]. destruct (ascii_dec a b) as [->|Hne].
  - now rewrite Ascii.eqb_refl.
  - apply Ascii.eqb_neq in Hne. now rewrite Hne.
Qed.

Lemma prefix_of_nil a sub : prefix (String a sub) EmptyString = false.
Proof. reflexivity. Qed.

(** Decides [prefix p s = false -> prefix p (s ++ ext) = false] for
    literals [p] and [ext] and a string [s] whose first characters are
    variables, by cases on the comparisons of characters. *)
Ltac compare_chars :=
  cbn [append];
  rewrite ?prefix_cons_eqb, ?prefix_nil, ?prefix_of_nil;
  repeat match goal with
         | |- context [Ascii.eqb ?a ?b] =>
             first [ is_var b; destruct (Ascii.eqb_spec a b); subst
                   | let v := eval vm_compute in (Ascii.eqb a b) in
                     change (Ascii.eqb a b) with v ];
             cbn [andb]
         end;
  first [ reflexivity | let H := fresh in intro H; first [ discriminate H | exact H ] ].

(** An extension put after a non-empty string that does not start with
    it does not make it start with it. *)
Lemma prefix_txt_extended c s :
  prefix ".txt" (String c s) = false -> prefix ".txt" (String c s ++ ".txt") = false.
Proof.
  destruct s as [|c1 [|c2 [|c3 s]]]; compare_chars.
Qed.

Lemma prefix_json_extended c s :
  prefix ".json" (String c s) = false -> prefix ".json" (String c s ++ ".json") = false.
Proof.
  destruct s as [|c1 [|c2 [|c3 [|c4 s]]]]; compare_chars.
Qed.

Lemma prefix_txt_before_json s :
  prefix ".txt" s = false -> prefix ".txt" (s ++ ".json") = false.
Proof.
  destruct s as [|c [|c1 [|c2 [|c3 s]]]]; compare_chars.
Qed.

Lemma replace_txt_suffix stem :
  Py.contains ".txt" stem = false -> Py.replace (stem ++ ".txt") ".txt" EmptyString = stem.
Proof.
  unfold Py.replace. induction stem as [|c stem IH]; intro H; [reflexivity|].
  apply contains_false_cons in H. destruct H as [Hpre Hrest].
  apply prefix_txt_extended in Hpre.
  change (String c stem ++ ".txt") with (String c (stem ++ ".txt")) in *.
  cbn [Py.replace_from]. rewrite Hpre. now rewrite IH.
Qed.

Lemma replace_json_suffix stem :
  Py.contains ".json" stem = false -> Py.replace (stem ++ ".json") ".json" EmptyString = stem.
Proof.
  unfold Py.replace. induction stem as [|c stem IH]; intro H; [reflexivity|].
  apply contains_false_cons in H. destruct H as [Hpre Hrest].
  apply prefix_json_extended in Hpre.
  change (String c stem ++ ".json") with (String c (stem ++ ".json")) in *.
  cbn [Py.replace_from]. rewrite Hpre. now rewrite IH.
Qed.

Lemma txt_absent_before_json stem :
  Py.contains ".txt" stem = false -> Py.contains ".txt" (stem ++ ".json") = false.
Proof.
  induction stem as [|c stem IH]; intro H; [reflexivity|].
  apply contains_false_cons in H. destruct H as [Hpre Hrest].
  apply prefix_txt_before_json in Hpre.
  change (String c stem ++ ".json") with (String c (stem ++ ".json")) in *.
  cbn [Py.contains]. rewrite Hpre. now apply IH.
Qed.

(** The identifier of a file whose stem is plain. *)
Lemma document_id_plain corpus file_name stem :
  stem_of file_name = Some stem ->
  plain stem = true ->
  document_id corpus file_name = corpus ++ "_" ++ stem.
Proof.
  unfold stem_of, plain, document_id. intros Hstem Hplain.
  apply andb_true_iff in Hplain. destruct Hplain as [Htxt Hjson].
  apply negb_true_iff in Htxt. apply negb_true_iff in Hjson.
  destruct (Py.endswith file_name ".txt") eqn:E1.
  - injection Hstem as Hstem. apply endswith_split in E1.
    change (Py.len ".txt") with 4 in E1. rewrite Hstem in E1. rewrite E1.
    rewrite (replace_txt_suffix stem Htxt), (replace_absent _ _ stem Hjson). reflexivity.
  - destruct (Py.endswith file_name ".json") eqn:E2; [|discriminate Hstem].
    injection Hstem as Hstem. apply endswith_split in E2.
    change (Py.len ".json") with 5 in E2. rewrite Hstem in E2. rewrite E2.
    rewrite (replace_absent _ _ _ (txt_absent_before_json stem Htxt)).
    rewrite (replace_json_suffix stem Hjson). reflexivity.
Qed.

Lemma plain_name_id corpus file_name :
  plain_name file_name = true ->
  exists stem,
    stem_of file_name = Some stem /\ document_id corpus file_name = corpus ++ "_" ++ stem.
Proof.
  unfold plain_name. destruct (stem_of file_name) as [stem|] eqn:E; [|discriminate].
  intro H. exists stem. split; [reflexivity|]. now apply document_id_plain.
Qed.

(** A document of the catalog comes from an included file of the walk. *)
Lemma extracted_from corpus fs d :
  In d (flat_map (extracted corpus) fs) ->
  exists f,
    In f fs /\ included (name f) = true
    /\ filename d = name f /\ id d = document_id corpus (name f)
    /\ corpus_name d = corpus.
Proof.
  intro H. apply in_flat_map in H. destruct H as (f & Hf & Hd).
  exists f. unfold extracted in Hd.
  destruct (included (name f)); [|contradiction].
  destruct (read f) as [e|text]; [contradiction|].
  destruct (Py.truthy (Py.strip text)); [|contradiction].
  destruct Hd as [<-|[]]. now repeat split.
Qed.

Lemma included_name_in fs f :
  In f fs -> included (name f) = true -> In (name f) (filter included (map name fs)).
Proof.
  intros Hf Hinc. apply filter_In. split; [|exact Hinc]. now apply in_map.
Qed.

(** Plain, pairwise distinct stems give pairwise distinct identifiers. *)
Lemma distinct_stems_distinct_ids corpus fs :
  Forall (fun n => plain_name n = true) (filter included (map name fs)) ->
  NoDup (map stem_of (filter included (map name fs))) ->
  NoDup (map id (flat_map (extracted corpus) fs)).
Proof.
  induction fs as [|f fs IH]; intros Hplain Hstems; [constructor|].
  cbn [map filter] in Hplain, Hstems. cbn [flat_map]. rewrite map_app.
  unfold extracted at 1.
  destruct (included (name f)) eqn:Einc; [|now apply IH].
  apply Forall_cons_iff in Hplain. destruct Hplain as [Hf Hplain].
  cbn [map] in Hstems. apply NoDup_cons_iff in Hstems. destruct Hstems as [Hnew Hstems].
  specialize (IH Hplain Hstems).
  destruct (read f) as [e|text]; [exact IH|].
  destruct (Py.truthy (Py.strip text)); [|exact IH].
  cbn [map app id]. constructor; [|exact IH].
  intro Hin. apply in_map_iff in Hin. destruct Hin as (d & Hid & Hd).
  apply extracted_from in Hd. destruct Hd as (f' & Hf' & Hinc' & _ & Hid' & _).
  pose proof (included_name_in fs f' Hf' Hinc') as Hname'.
  rewrite Forall_forall in Hplain. specialize (Hplain _ Hname').
  destruct (plain_name_id corpus (name f) Hf) as (stem & Hstem & Hdoc).
  destruct (plain_name_id corpus (name f') Hplain) as (stem' & Hstem' & Hdoc').
  rewrite Hid', Hdoc', Hdoc in Hid.
  apply string_app_inv_head in Hid. apply string_app_inv_head in Hid. subst stem'.
  apply Hnew. rewrite Hstem, <- Hstem'. now apply in_map.
Qed.

(** C3, as the code has it: on a valid archive, the id of every document
    of the catalog is computed from the corpus name and the file name
    alone; when the basename without its extension contains neither
    extension, the id is the corpus name, an underscore and that
    basename; and the ids of the catalog are pairwise distinct when the
    included files of the archive have such basenames, pairwise
    distinct. *)
Theorem document_ids :
  forall get corpus w resp walk documents w',
    outcome get = inr resp ->
    valid_archive resp walk ->
    download_corpus get corpus w = (Ok documents, w') ->
    (forall d, In d documents ->
               included (filename d) = true
               /\ id d = document_id corpus (filename d))
    /\ (forall d stem, In d documents ->
                       stem_of (filename d) = Some stem ->
                       plain stem = true ->
                       id d = corpus ++ "_" ++ stem)
    /\ (Forall (fun n => plain_name n = true) (included_names walk) ->
        NoDup (map stem_of (included_names walk)) ->
        NoDup (map id documents)).
Proof.
  intros get corpus w resp walk documents w' Hget Hvalid Hrun.
  rewrite (download_corpus_valid get corpus w resp walk Hget Hvalid) in Hrun.
  injection Hrun as <- _.
  assert (Hfrom : forall d, In d (flat_map (extracted corpus) (all_files walk)) ->
                            included (filename d) = true
                            /\ id d = document_id corpus (filename d)).
  { intros d Hd. apply extracted_from in Hd.
    destruct Hd as (f & _ & Hinc & Hname & Hid & _). rewrite Hname. now split. }
  split; [exact Hfrom|]. split.
  - intros d stem Hd Hstem Hplain. destruct (Hfrom d Hd) as [_ ->].
    now apply document_id_plain.
  - apply distinct_stems_distinct_ids.
Qed.

Lemma document_ids_witness :
  let fs := [Scenario.text_file "a.txt" "first"; Scenario.text_file "b.json" "second"] in
  let documents := flat_map (extracted "maud") (all_files (Scenario.walk_of fs)) in
  (forall d, In d documents ->
             included (filename d) = true
             /\ id d = document_id "maud" (filename d))
  /\ (forall d stem, In d documents ->
                     stem_of (filename d) = Some stem ->
                     plain stem = true ->
                     id d = "maud" ++ "_" ++ stem)
  /\ (Forall (fun n => plain_name n = true) (included_names (Scenario.walk_of fs)) ->
      NoDup (map stem_of (included_names (Scenario.walk_of fs))) ->
      NoDup (map id documents)).
Proof.
  cbv zeta.
  apply (document_ids
           (Scenario.archive_of
              [Scenario.text_file "a.txt" "first"; Scenario.text_file "b.json" "second"])
           "maud" (empty_world 0)
           (Scenario.response_of
              [Scenario.text_file "a.txt" "first"; Scenario.text_file "b.json" "second"])
           (Scenario.walk_of
              [Scenario.text_file "a.txt" "first"; Scenario.text_file "b.json" "second"])
           _
           (snd (download_corpus
                   (Scenario.archive_of
                      [Scenario.text_file "a.txt" "first";
                       Scenario.text_file "b.json" "second"])
                   "maud" (empty_world 0)))).
  - reflexivity.
  - split; [left; simpl; lia|reflexivity].
  - vm_compute. reflexivity.
Defined.

Example ids_of_two_plain :
  let r := download_corpus Scenario.two_plain "maud" (empty_world 0) in
  exists documents, fst r = Ok documents /\ map id documents = ["maud_a"; "maud_b"].
Proof. cbv zeta. eexists. split; vm_compute; reflexivity. Qed.

(** C3 as stated fails: an archive that holds a.txt and a.json is valid,
    and both documents get the id maud_a. *)
Lemma same_stem_same_id :
  let r := download_corpus Scenario.same_stem "maud" (empty_world 0) in
  valid_archive
    (Scenario.response_of
       [Scenario.text_file "a.txt" "first"; Scenario.text_file "a.json" "second"])
    (Scenario.walk_of
       [Scenario.text_file "a.txt" "first"; Scenario.text_file "a.json" "second"])
  /\ exists documents,
       fst r = Ok documents
       /\ map filename documents = ["a.txt"; "a.json"]
       /\ map id documents = ["maud_a"; "maud_a"]
       /\ ~ NoDup (map id documents).
Proof.
  cbv zeta. split; [split; [left; simpl; lia|reflexivity]|].
  eexists. split; [vm_compute; reflexivity|].
  split; [vm_compute; reflexivity|]. split; [vm_compute; reflexivity|].
  intro H. apply NoDup_cons_iff in H. destruct H as [H _]. apply H. now left.
Qed.

(* ===================================================================== *)
(** * More on the upload loop *)
(* ===================================================================== *)

Lemma progress_values_app a b :
  progress_values (a ++ b) = (progress_values a ++ progress_values b)%list.
Proof.
  induction a as [|ev a IH]; [reflexivity|].
  destruct ev; simpl; try exact IH. now rewrite IH.
Qed.

(** One document: what is sent, what is shown and the tokens counted. *)
Lemma upload_document_trace client coll n i doc s w :
  exists s' w',
    upload_document client coll n i doc s w = (Ok s', w')
    /\ tokens s' = tokens s + count_tokens (content doc)
    /\ sent w' = (sent w ++ [add_request coll doc])%list
    /\ page w' = (page w ++ upload_events client coll n i [doc])%list
    /\ session_performance_stats w' = session_performance_stats w
    /\ session_selected_corpus w' = session_selected_corpus w.
Proof.
  unfold upload_document, add_request, upload_events, is_conflict.
  unfold bind, try_except, call, receive, show, st_warning, show, ret.
  cbn [now page sent session_performance_stats session_selected_corpus].
  destruct (outcome (documents_add client i coll (id doc ++ ".txt") (content doc)))
    as [e|[]].
  - destruct (Py.contains "409" (str e)); cbn [negb andb orb].
    + do 2 eexists. split; [reflexivity|]. cbn. rewrite <- !app_assoc. now repeat split.
    + destruct (Py.contains "already exists" (Py.lower (str e))); cbn [negb andb orb].
      * do 2 eexists. split; [reflexivity|]. cbn. rewrite <- !app_assoc. now repeat split.
      * do 2 eexists. split; [reflexivity|]. cbn. rewrite <- !app_assoc. now repeat split.
  - do 2 eexists. split; [reflexivity|]. cbn. rewrite <- !app_assoc. now repeat split.
Qed.

Lemma upload_events_cons client coll n i doc rest :
  upload_events client coll n i (doc :: rest)
  = (upload_events client coll n i [doc] ++ upload_events client coll n (S i) rest)%list.
Proof.
  cbn [upload_events]. rewrite <- app_comm_cons. f_equal.
  rewrite <- app_assoc. f_equal.
Qed.

Lemma upload_loop_trace client coll n :
  forall documents i s w,
  exists s' w',
    for_enumerate (upload_document client coll n) i documents s w = (Ok s', w')
    /\ tokens s' = tokens s + list_sum (map (fun doc => count_tokens (content doc)) documents)
    /\ sent w' = (sent w ++ map (add_request coll) documents)%list
    /\ page w' = (page w ++ upload_events client coll n i documents)%list
    /\ session_performance_stats w' = session_performance_stats w
    /\ session_selected_corpus w' = session_selected_corpus w.
Proof.
  induction documents as [|doc documents IH]; intros i s w.
  - exists s, w. cbn [for_enumerate map upload_events]. rewrite !app_nil_r.
    split; [reflexivity|]. split; [simpl; lia|]. now repeat split.
  - cbn [for_enumerate]. unfold bind at 1.
    destruct (upload_document_trace client coll n i doc s w)
      as (s1 & w1 & -> & Ht1 & Hs1 & Hp1 & Hps1 & Hsc1).
    destruct (IH (S i) s1 w1) as (s' & w' & Hrun & Ht & Hs & Hp & Hps & Hsc).
    exists s', w'. split; [exact Hrun|].
    rewrite Ht, Hs, Hp, Hps, Hsc, Ht1, Hs1, Hp1, Hps1, Hsc1.
    rewrite (upload_events_cons client coll n i doc documents).
    cbn [map]. rewrite <- !app_assoc.
    split; [simpl; lia|]. now repeat split.
Qed.

(** X1: whatever the index answers, the upload ends normally and has
    submitted every document of the catalog exactly once, in the order
    of the catalog, under the path made of its id and .txt, with its
    content; a submission that fails does not stop the others, and the
    session entries are left alone. *)
Theorem upload_submits_every_document :
  forall client coll documents w,
  exists s w',
    upload_documents client coll documents w = (Ok s, w')
    /\ sent w' = (sent w ++ map (add_request coll) documents)%list
    /\ session_performance_stats w' = session_performance_stats w
    /\ session_selected_corpus w' = session_selected_corpus w.
Proof.
  intros client coll documents w. unfold upload_documents.
  destruct (upload_loop_trace client coll (List.length documents) documents 0
              {| tokens := 0; successful_docs := 0; failed_docs := 0 |} w)
    as (s & w' & Hrun & _ & Hs & _ & Hps & Hsc).
  exists s, w'. now repeat split.
Qed.

Lemma upload_events_warnings client coll n :
  forall documents i,
    count is_warning (upload_events client coll n i documents)
    = count is_failed (add_kinds client coll i documents).
Proof.
  induction documents as [|doc documents IH]; intro i; [reflexivity|].
  cbn [upload_events add_kinds]. rewrite !count_cons. cbn [is_warning].
  unfold count in *. rewrite filter_app, length_app. cbn [filter is_warning List.length].
  rewrite IH. unfold kind_of.
  destruct (outcome (documents_add client i coll (id doc ++ ".txt") (content doc)))
    as [e|u]; [|reflexivity].
  destruct (is_conflict e); reflexivity.
Qed.

(** X2: whatever the index answers, every document is counted once: the
    successes, the failures and the conflicts (counted by neither
    counter) add up to the size of the catalog; the failures counted are
    the submissions that raised without a conflict message, and each of
    them, and nothing else, is shown as a warning. *)
Theorem upload_counts_every_document :
  forall client coll documents w,
  exists s w' evs,
    upload_documents client coll documents w = (Ok s, w')
    /\ successful_docs s + failed_docs s
       + count is_conflicting (add_kinds client coll 0 documents)
       = List.length documents
    /\ failed_docs s = count is_failed (add_kinds client coll 0 documents)
    /\ page w' = (page w ++ evs)%list
    /\ count is_warning evs = failed_docs s.
Proof.
  intros client coll documents w. unfold upload_documents.
  destruct (upload_loop_counts client coll (List.length documents) documents 0
              {| tokens := 0; successful_docs := 0; failed_docs := 0 |} w)
    as (s & w' & Hrun & Hs & Hf).
  destruct (upload_loop_trace client coll (List.length documents) documents 0
              {| tokens := 0; successful_docs := 0; failed_docs := 0 |} w)
    as (s2 & w2 & Hrun2 & _ & _ & Hp & _).
  rewrite Hrun in Hrun2. injection Hrun2 as <- <-.
  exists s, w', (upload_events client coll (List.length documents) 0 documents).
  split; [exact Hrun|].
  cbn [successful_docs failed_docs] in Hs, Hf.
  pose proof (kinds_partition (add_kinds client coll 0 documents)) as Hpart.
  rewrite add_kinds_length in Hpart.
  split; [lia|]. split; [lia|]. split; [exact Hp|].
  rewrite upload_events_warnings. lia.
Qed.

Lemma upload_events_progress client coll n :
  forall documents i,
    progress_values (upload_events client coll n i documents)
    = map (fun j => ratio (j + 1) n) (seq i (List.length documents)).
Proof.
  induction documents as [|doc documents IH]; intro i; [reflexivity|].
  cbn [upload_events progress_values List.length seq map].
  rewrite progress_values_app. cbn [progress_values]. rewrite IH.
  destruct (outcome (documents_add client i coll (id doc ++ ".txt") (content doc)))
    as [e|u]; [|reflexivity].
  destruct (is_conflict e); reflexivity.
Qed.

(** X3: the upload shows one progress value for each document, in order
    1/n, 2/n, ..., n/n for a catalog of n documents, whatever the index
    answers: the values go up at every document and the last one is full
    progress. *)
Theorem upload_progress_values :
  forall client coll documents w,
  exists evs,
    page (snd (upload_documents client coll documents w)) = (page w ++ evs)%list
    /\ progress_values evs
       = map (fun j => ratio (j + 1) (List.length documents))
             (seq 0 (List.length documents))
    /\ (forall j k, j < k -> k < List.length documents ->
          (ratio (j + 1) (List.length documents)
           < ratio (k + 1) (List.length documents))%Q)
    /\ (0 < List.length documents ->
          (ratio (List.length documents) (List.length documents) == 1)%Q).
Proof.
  intros client coll documents w. unfold upload_documents.
  destruct (upload_loop_trace client coll (List.length documents) documents 0
              {| tokens := 0; successful_docs := 0; failed_docs := 0 |} w)
    as (s & w' & Hrun & _ & _ & Hp & _).
  rewrite Hrun. cbn [snd].
  exists (upload_events client coll (List.length documents) 0 documents).
  split; [exact Hp|]. split; [apply upload_events_progress|].
  split.
  - intros j k Hjk Hk. unfold ratio.
    assert (Hn : (0 < inject_Z (Z.of_nat (List.length documents)))%Q).
    { unfold Qlt. simpl. lia. }
    apply Qmult_lt_compat_r; [now apply Qinv_lt_0_compat|].
    rewrite <- Zlt_Qlt. lia.
  - intro Hn. unfold ratio. apply Qmult_inv_r.
    intro H0. unfold Qeq in H0. simpl in H0. lia.
Qed.

(* ===================================================================== *)
(** * More on the polling loop *)
(* ===================================================================== *)

(** What the loop sends, and what it does to the session, by the way it
    ends. *)
Lemma poll_loop_effects c :
  forall fuel k w r w',
    poll_loop fuel c k w = (r, w') ->
    (exists n,
        n <= fuel
        /\ sent w'
           = (sent w
              ++ repeat (DocumentsGetInfoList (collection_name c) (selected_corpus c ++ "_"))
                        n)%list)
    /\ (r = Ok (Some Converged) \/ r = Ok (Some TimedOut) \/ r = Ok None)
    /\ (r = Ok (Some Converged) ->
        session_selected_corpus w' = Some (selected_corpus c)
        /\ exists ps,
             session_performance_stats w' = Some ps
             /\ 0 < total_count ps
             /\ total_tokens ps = tokens_uploaded c
             /\ download_time ps = download_time_so_far c
             /\ upload_time ps = upload_time_so_far c)
    /\ (r <> Ok (Some Converged) ->
        session_selected_corpus w' = session_selected_corpus w
        /\ session_performance_stats w' = session_performance_stats w).
Proof.
  intros fuel. induction fuel as [|fuel IH]; intros k w r w' Hrun.
  - injection Hrun as <- <-. split.
    + exists 0. split; [lia|]. now rewrite app_nil_r.
    + split; [auto|]. split; [discriminate|]. now split.
  - rewrite poll_loop_unfold in Hrun.
    destruct (Qlt_le_dec max_wait_time (now w - monitoring_start_time c)) as [H|H].
    + rewrite (poll_iteration_timed_out c k w H) in Hrun. injection Hrun as <- <-.
      split.
      * exists 0. split; [lia|]. cbn. now rewrite app_nil_r.
      * split; [auto|]. split; [discriminate|]. now split.
    + rewrite (poll_iteration_tick c k w H) in Hrun. cbv zeta in Hrun.
      destruct (_ && _) eqn:E.
      * injection Hrun as <- <-. split.
        -- exists 1. split; [lia|]. reflexivity.
        -- split; [auto|]. split; [|congruence].
           intros _. split; [reflexivity|]. eexists. split; [reflexivity|].
           apply andb_true_iff in E. destruct E as [_ E]. apply Nat.ltb_lt in E.
           cbn. now repeat split.
      * apply IH in Hrun. destruct Hrun as ((n & Hn & Hsent) & Hr & Hconv & Hother).
        cbn [sent elapsed shown status_checked session_selected_corpus
               session_performance_stats] in Hsent, Hother.
        split.
        -- exists (S n). split; [lia|]. rewrite Hsent, <- app_assoc. reflexivity.
        -- split; [exact Hr|]. split; [exact Hconv|exact Hother].
Qed.

(** X4: the polling loop only reads the index: everything it sends is a
    status query for the same collection and the same path prefix, the
    corpus name and an underscore, at most one per pass; and it never
    raises nor stops the script: it ends Converged or TimedOut, or is
    still running when the passes are used up. *)
Theorem poller_only_reads :
  forall fuel client coll corpus t_start t_download t_upload n_tokens w,
    let r := monitor_indexing fuel client coll corpus
               t_start t_download t_upload n_tokens w in
    (exists n,
        n <= fuel
        /\ sent (snd r)
           = (sent w ++ repeat (DocumentsGetInfoList coll (corpus ++ "_")) n)%list)
    /\ (fst r = Ok (Some Converged) \/ fst r = Ok (Some TimedOut) \/ fst r = Ok None).
Proof.
  intros fuel client coll corpus dst dl ul tok w r. subst r.
  unfold monitor_indexing, bind, time_time, elapse.
  match goal with
  | |- context [poll_loop fuel ?c 0 ?w1] =>
      destruct (poll_loop fuel c 0 w1) as [r w'] eqn:Hrun;
      apply (poll_loop_effects c) in Hrun
  end.
  destruct Hrun as (Hsent & Hr & _). cbn [fst snd]. split; [exact Hsent|exact Hr].
Qed.

(** X5: only a run that converges writes to the session: it selects the
    corpus and stores statistics whose document count is positive and
    whose token count, download time and upload time are those of the
    phases before; a run that times out, or is still polling, leaves the
    selected corpus and the statistics as they were. *)
Theorem only_convergence_writes_session :
  forall fuel client coll corpus t_start t_download t_upload n_tokens w,
    let r := monitor_indexing fuel client coll corpus
               t_start t_download t_upload n_tokens w in
    (fst r = Ok (Some Converged)
     /\ session_selected_corpus (snd r) = Some corpus
     /\ exists ps,
          session_performance_stats (snd r) = Some ps
          /\ 0 < total_count ps
          /\ total_tokens ps = n_tokens
          /\ download_time ps = t_download
          /\ upload_time ps = t_upload)
    \/ (fst r <> Ok (Some Converged)
        /\ session_selected_corpus (snd r) = session_selected_corpus w
        /\ session_performance_stats (snd r) = session_performance_stats w).
Proof.
  intros fuel client coll corpus dst dl ul tok w r. subst r.
  unfold monitor_indexing, bind, time_time, elapse.
  match goal with
  | |- context [poll_loop fuel ?c 0 ?w1] =>
      destruct (poll_loop fuel c 0 w1) as [r w'] eqn:Hrun;
      apply (poll_loop_effects c) in Hrun
  end.
  destruct Hrun as (_ & Hr & Hconv & Hother). cbn [fst snd].
  destruct Hr as [->|[->| ->]].
  - left. destruct (Hconv eq_refl) as (Hsel & ps & Hps & Hpos & Htok & Hdl & Hul).
    split; [reflexivity|]. split; [exact Hsel|]. exists ps. now repeat split.
  - right. split; [discriminate|]. apply Hother. discriminate.
  - right. split; [discriminate|]. apply Hother. discriminate.
Qed.

(* ===================================================================== *)
(** * Tokens *)
(* ===================================================================== *)

Lemma lstrip_all_space s : all_space s = true -> Py.lstrip s = EmptyString.
Proof.
  induction s as [|c s IH]; [reflexivity|].
  cbn [all_space Py.lstrip]. intro H. apply andb_true_iff in H. destruct H as [-> H].
  now apply IH.
Qed.

Lemma lstrip_some_text s :
  all_space s = false ->
  exists c t, Py.lstrip s = String c t /\ Py.isspace c = false.
Proof.
  induction s as [|c s IH]; [discriminate|].
  cbn [all_space Py.lstrip]. destruct (Py.isspace c) eqn:E.
  - cbn [andb]. exact IH.
  - intros _. now exists c, s.
Qed.

Lemma rstrip_some_text c t : Py.isspace c = false -> Py.truthy (Py.rstrip (String c t)) = true.
Proof.
  intro H. cbn [Py.rstrip]. rewrite H. now destruct (Py.rstrip t).
Qed.

(** A text passes the test [content.strip()] unless it is all white
    space. *)
Lemma truthy_strip s : Py.truthy (Py.strip s) = negb (all_space s).
Proof.
  unfold Py.strip. destruct (all_space s) eqn:E.
  - now rewrite lstrip_all_space.
  - destruct (lstrip_some_text s E) as (c & t & -> & Hc). now apply rstrip_some_text.
Qed.

Lemma split_head_text c s : Py.isspace c = false -> Py.split (String c s) <> [].
Proof.
  intro H. cbn [Py.split]. rewrite H.
  destruct s as [|c' s']; [discriminate|].
  destruct (Py.isspace c'); [discriminate|].
  destruct (Py.split (String c' s')); discriminate.
Qed.

Lemma split_nil s : Py.split s = [] <-> all_space s = true.
Proof.
  induction s as [|c s IH]; [now split|].
  destruct (Py.isspace c) eqn:E.
  - cbn [Py.split all_space]. rewrite E. exact IH.
  - cbn [all_space]. rewrite E. cbn [andb]. split; [|discriminate].
    intro H. exfalso. exact (split_head_text c s E H).
Qed.

Lemma split_text_nil c : Py.isspace c = false -> Py.split (String c EmptyString) = [String c EmptyString].
Proof. intro H. cbn [Py.split]. now rewrite H. Qed.

Lemma split_text_cons c c' s :
  Py.isspace c = false ->
  Py.split (String c (String c' s))
  = if Py.isspace c' then String c EmptyString :: Py.split (String c' s)
    else match Py.split (String c' s) with
         | w :: ws => String c w :: ws
         | [] => [String c EmptyString]
         end.
Proof. intro H. cbn [Py.split]. rewrite H. reflexivity. Qed.

Lemma split_space_cons c s : Py.isspace c = true -> Py.split (String c s) = Py.split s.
Proof. intro H. cbn [Py.split]. now rewrite H. Qed.

(** Splitting at a white space character splits the words. *)
Lemma split_app a sp b :
  Py.isspace sp = true ->
  Py.split (a ++ String sp b) = (Py.split a ++ Py.split b)%list.
Proof.
  intro Hsp. induction a as [|c a IH].
  - cbn [append]. now rewrite split_space_cons.
  - change (String c a ++ String sp b) with (String c (a ++ String sp b)).
    destruct (Py.isspace c) eqn:Ec.
    + now rewrite !split_space_cons.
    + destruct a as [|c' a'].
      * cbn [append] in *. rewrite split_text_cons, Hsp, split_text_nil by exact Ec.
        now rewrite IH.
      * change (String c' a' ++ String sp b) with (String c' (a' ++ String sp b)) in *.
        rewrite !split_text_cons by exact Ec. rewrite IH.
        destruct (Py.isspace c') eqn:Ec'; [reflexivity|].
        destruct (Py.split (String c' a')) as [|word words] eqn:Es.
        -- exfalso. exact (split_head_text c' a' Ec' Es).
        -- reflexivity.
Qed.

(** X6: [count_tokens] counts the words of a text: it is zero exactly
    on the texts that the extraction drops as blank (those that
    [strip] empties), and the count of two texts joined by a white
    space character is the sum of their counts. *)
Theorem count_tokens_counts_words :
  forall text,
    (count_tokens text = 0 <-> Py.truthy (Py.strip text) = false)
    /\ (forall other sp,
          Py.isspace sp = true ->
          count_tokens (text ++ String sp other) = count_tokens text + count_tokens other).
Proof.
  intro text. split.
  - unfold count_tokens. rewrite truthy_strip, negb_false_iff, <- split_nil.
    split; intro H.
    + now apply length_zero_iff_nil.
    + now rewrite H.
  - intros other sp Hsp. unfold count_tokens. rewrite (split_app text sp other Hsp).
    apply length_app.
Qed.

(* ===================================================================== *)
(** * More on the extraction *)
(* ===================================================================== *)

Lemma extracted_document corpus fs d :
  In d (flat_map (extracted corpus) fs) ->
  exists f,
    In f fs /\ filename d = name f /\ read f = inr (content d)
    /\ Py.truthy (Py.strip (content d)) = true
    /\ corpus_name d = corpus /\ original_path d = filename d.
Proof.
  intro H. apply in_flat_map in H. destruct H as (f & Hf & Hd).
  exists f. unfold extracted in Hd.
  destruct (included (name f)); [|contradiction].
  destruct (read f) as [e|text]; [contradiction|].
  destruct (Py.truthy (Py.strip text)) eqn:E; [|contradiction].
  destruct Hd as [<-|[]]. cbn. now repeat split.
Qed.

Lemma one_token_at_least text : Py.truthy (Py.strip text) = true -> 1 <= count_tokens text.
Proof.
  intro H. rewrite truthy_strip, negb_true_iff in H.
  unfold count_tokens. destruct (Py.split text) eqn:E; [|simpl; lia].
  apply split_nil in E. congruence.
Qed.

(** X7: on a valid archive every document of the catalog is the text of
    an included file of the walk, kept whole; it is not blank and has at
    least one token; it carries the corpus name, and its original path
    is its file name, without the directory. *)
Theorem catalog_documents_are_file_texts :
  forall get corpus w resp walk documents w',
    outcome get = inr resp ->
    valid_archive resp walk ->
    download_corpus get corpus w = (Ok documents, w') ->
    forall d, In d documents ->
      (exists f, In f (all_files walk) /\ included (name f) = true
                 /\ filename d = name f /\ read f = inr (content d))
      /\ Py.truthy (Py.strip (content d)) = true
      /\ 1 <= count_tokens (content d)
      /\ corpus_name d = corpus
      /\ original_path d = filename d.
Proof.
  intros get corpus w resp walk documents w' Hget Hvalid Hrun d Hd.
  rewrite (download_corpus_valid get corpus w resp walk Hget Hvalid) in Hrun.
  injection Hrun as <- _.
  destruct (extracted_from corpus _ d Hd) as (f0 & _ & Hinc0 & Hname0 & _).
  destruct (extracted_document corpus _ d Hd) as (f & Hf & Hname & Hread & Htext & Hc & Hp).
  split.
  - exists f. split; [exact Hf|]. split; [|now split].
    rewrite <- Hname, Hname0. exact Hinc0.
  - split; [exact Htext|]. split; [now apply one_token_at_least|]. now split.
Qed.

Lemma catalog_documents_are_file_texts_witness :
  let fs := [Scenario.text_file "a.txt" "first"; Scenario.text_file "b.json" "second"] in
  let d := {| id := "maud_b"; content := "second"; filename := "b.json";
              corpus_name := "maud"; original_path := "b.json" |} in
  (exists f, In f (all_files (Scenario.walk_of fs)) /\ included (name f) = true
             /\ filename d = name f /\ read f = inr (content d))
  /\ Py.truthy (Py.strip (content d)) = true
  /\ 1 <= count_tokens (content d)
  /\ corpus_name d = "maud"
  /\ original_path d = filename d.
Proof.
  cbv zeta.
  apply (catalog_documents_are_file_texts
           (Scenario.archive_of
              [Scenario.text_file "a.txt" "first"; Scenario.text_file "b.json" "second"])
           "maud" (empty_world 0)
           (Scenario.response_of
              [Scenario.text_file "a.txt" "first"; Scenario.text_file "b.json" "second"])
           (Scenario.walk_of
              [Scenario.text_file "a.txt" "first"; Scenario.text_file "b.json" "second"])
           (flat_map (extracted "maud")
              (all_files
                 (Scenario.walk_of
                    [Scenario.text_file "a.txt" "first";
                     Scenario.text_file "b.json" "second"])))
           (snd (download_corpus
                   (Scenario.archive_of
                      [Scenario.text_file "a.txt" "first";
                       Scenario.text_file "b.json" "second"])
                   "maud" (empty_world 0)))).
  - reflexivity.
  - split; [left; simpl; lia|reflexivity].
  - vm_compute. reflexivity.
  - vm_compute. right. left. reflexivity.
Defined.

(* ===================================================================== *)
(** * The whole branch: a failed download, and the order of the phases *)
(* ===================================================================== *)

(** The download raises exactly when it fails, with the exception of the
    failure, after the time of the request and without a word on the
    page. *)
Lemma download_corpus_failure get corpus w e :
  download_failure get = Some e ->
  download_corpus get corpus w = (Raise e, elapsed w (dt get)).
Proof.
  unfold download_failure, download_corpus. intro H.
  unfold bind at 1. unfold receive.
  destruct (outcome get) as [e0|resp].
  - injection H as ->. reflexivity.
  - unfold bind at 1. unfold raise_for_status.
    destruct ((400 <=? status_code resp) && (status_code resp <? 600)).
    + injection H as <-. reflexivity.
    + unfold ret at 1. unfold bind at 1. unfold extract_and_walk.
      destruct (body resp) as [e0|walk]; [|discriminate H].
      injection H as ->. reflexivity.
Qed.

(** X8: when the download fails (the request raises, the status is 4xx
    or 5xx, or the payload is not an archive) the branch shows the error
    and stops the script: nothing is sent to the index, no status is
    polled, and the session is left as it was. *)
Theorem failed_download_stops_the_run :
  forall fuel get client coll corpus w e,
    download_failure get = Some e ->
    exists w',
      download_and_index fuel get client coll corpus w = (Stop, w')
      /\ page w' = (page w ++ [Error (FailedToDownload e)])%list
      /\ sent w' = sent w
      /\ session_performance_stats w' = session_performance_stats w
      /\ session_selected_corpus w' = session_selected_corpus w.
Proof.
  intros fuel get client coll corpus w e Hfail.
  unfold download_and_index. unfold bind at 1. unfold time_time.
  unfold bind at 1. unfold try_except. unfold bind at 1.
  rewrite (download_corpus_failure get corpus w e Hfail).
  eexists. split; [reflexivity|]. now repeat split.
Qed.

Lemma failed_download_stops_the_run_witness :
  let get := {| dt := 1%Q;
                outcome := inr {| status_code := 404; body := NotAZip (Exception "BadZipFile") |} |} in
  exists w',
    download_and_index 10 get Scenario.steady "default" "maud" (empty_world 0) = (Stop, w')
    /\ page w' = (page (empty_world 0) ++ [Error (FailedToDownload (Exception "HTTPError"))])%list
    /\ sent w' = sent (empty_world 0)
    /\ session_performance_stats w' = session_performance_stats (empty_world 0)
    /\ session_selected_corpus w' = session_selected_corpus (empty_world 0).
Proof.
  cbv zeta.
  apply (failed_download_stops_the_run 10
           {| dt := 1%Q;
              outcome := inr {| status_code := 404;
                                body := NotAZip (Exception "BadZipFile") |} |}
           Scenario.steady "default" "maud" (empty_world 0) (Exception "HTTPError")).
  reflexivity.
Defined.

(** On a valid archive the branch reaches the polling loop, after it has
    submitted the documents of the catalog. *)
Lemma download_and_index_valid fuel get client coll corpus w resp walk :
  outcome get = inr resp ->
  valid_archive resp walk ->
  exists w3 t_download t_upload,
    download_and_index fuel get client coll corpus w
    = monitor_indexing fuel client coll corpus (now w) t_download t_upload
        (list_sum (map (fun doc => count_tokens (content doc))
                       (flat_map (extracted corpus) (all_files walk))))
        w3
    /\ sent w3
       = (sent w ++ map (add_request coll) (flat_map (extracted corpus) (all_files walk)))%list
    /\ session_performance_stats w3 = session_performance_stats w
    /\ session_selected_corpus w3 = session_selected_corpus w.
Proof.
  intros Hget Hvalid.
  unfold download_and_index. unfold bind at 1. unfold time_time at 1.
  unfold bind at 1. unfold try_except. unfold bind at 1.
  rewrite (download_corpus_valid get corpus w resp walk Hget Hvalid).
  unfold bind at 1. unfold time_time at 1.
  unfold bind at 1. unfold st_success at 1. unfold show at 1. unfold ret at 1.
  unfold bind at 1. unfold elapse at 1.
  unfold bind at 1. unfold time_time at 1.
  unfold bind at 1. unfold st_progress at 1. unfold show at 1.
  unfold bind at 1. unfold upload_documents.
  match goal with
  | |- context [for_enumerate (upload_document client coll ?n) 0 ?docs ?s0 ?w1] =>
      destruct (upload_loop_trace client coll n docs 0 s0 w1)
        as (s & w2 & -> & Ht & Hs & _ & Hps & Hsc)
  end.
  cbn [tokens sent session_performance_stats session_selected_corpus shown elapsed]
    in Ht, Hs, Hps, Hsc.
  unfold bind at 1. unfold elapse at 1.
  unfold bind at 1. unfold time_time at 1.
  unfold bind at 1. unfold st_success at 1. unfold show at 1.
  unfold bind at 1.
  rewrite Ht. cbn [Nat.add].
  destruct (0 <? failed_docs s).
  - unfold st_warning, show. unfold bind at 1. unfold elapse at 1.
    eexists. do 2 eexists. split; [reflexivity|].
    cbn [sent session_performance_stats session_selected_corpus]. now repeat split.
  - unfold ret. unfold bind at 1. unfold elapse at 1.
    eexists. do 2 eexists. split; [reflexivity|].
    cbn [sent session_performance_stats session_selected_corpus]. now repeat split.
Qed.

(** X9: on a valid archive the phases follow one another: what the
    branch sends is first one submission for each document of the
    catalog, in the order of the catalog, then status queries only, at
    most one for each pass of the polling loop. *)
Theorem submissions_come_before_status_queries :
  forall fuel get client coll corpus w resp walk,
    outcome get = inr resp ->
    valid_archive resp walk ->
    exists n,
      n <= fuel
      /\ sent (snd (download_and_index fuel get client coll corpus w))
         = (sent w
            ++ map (add_request coll) (flat_map (extracted corpus) (all_files walk))
            ++ repeat (DocumentsGetInfoList coll (corpus ++ "_")) n)%list.
Proof.
  intros fuel get client coll corpus w resp walk Hget Hvalid.
  destruct (download_and_index_valid fuel get client coll corpus w resp walk Hget Hvalid)
    as (w3 & dl & ul & -> & Hsent & _).
  unfold monitor_indexing, bind, time_time, elapse.
  match goal with
  | |- context [poll_loop fuel ?c 0 ?w4] =>
      destruct (poll_loop fuel c 0 w4) as [r w'] eqn:Hrun;
      apply (poll_loop_effects c) in Hrun
  end.
  destruct Hrun as ((n & Hn & Hs) & _). cbn [snd sent collection_name selected_corpus] in *.
  exists n. split; [exact Hn|]. rewrite Hs, Hsent, <- app_assoc. reflexivity.
Qed.

Lemma submissions_come_before_status_queries_witness :
  let fs := [Scenario.text_file "a.txt" "first"; Scenario.text_file "b.json" "second"] in
  exists n,
    n <= 10
    /\ sent (snd (download_and_index 10 (Scenario.archive_of fs) Scenario.steady
                    "default" "maud" (empty_world 0)))
       = (sent (empty_world 0)
          ++ map (add_request "default")
                 (flat_map (extracted "maud") (all_files (Scenario.walk_of fs)))
          ++ repeat (DocumentsGetInfoList "default" ("maud" ++ "_")) n)%list.
Proof.
  cbv zeta.
  apply (submissions_come_before_status_queries 10
           (Scenario.archive_of
              [Scenario.text_file "a.txt" "first"; Scenario.text_file "b.json" "second"])
           Scenario.steady "default" "maud" (empty_world 0)
           (Scenario.response_of
              [Scenario.text_file "a.txt" "first"; Scenario.text_file "b.json" "second"])
           (Scenario.walk_of
              [Scenario.text_file "a.txt" "first"; Scenario.text_file "b.json" "second"])).
  - reflexivity.
  - split; [left; simpl; lia|reflexivity].
Defined.

Lemma list_sum_at_least {A : Type} (f : A -> nat) (l : list A) :
  (forall x, In x l -> 1 <= f x) -> List.length l <= list_sum (map f l).
Proof.
  induction l as [|x l IH]; intro H; [simpl; lia|].
  cbn [map List.length]. change (list_sum (f x :: map f l)) with (f x + list_sum (map f l)).
  specialize (H x (or_introl eq_refl)) as Hx.
  assert (Hl : List.length l <= list_sum (map f l)).
  { apply IH. intros y Hy. apply H. now right. }
  lia.
Qed.

(** X10: on a valid archive, the statistics of a run that converges
    hold the tokens of the whole catalog, the sum of the tokens of its
    documents, which is at least the number of documents of the catalog;
    their document count is what the index listed, and is positive. *)
Theorem converged_statistics_count_the_catalog :
  forall fuel get client coll corpus w resp walk w',
    outcome get = inr resp ->
    valid_archive resp walk ->
    download_and_index fuel get client coll corpus w = (Ok (Some Converged), w') ->
    exists ps,
      session_performance_stats w' = Some ps
      /\ total_tokens ps
         = list_sum (map (fun doc => count_tokens (content doc))
                         (flat_map (extracted corpus) (all_files walk)))
      /\ List.length (flat_map (extracted corpus) (all_files walk)) <= total_tokens ps
      /\ 0 < total_count ps
      /\ session_selected_corpus w' = Some corpus.
Proof.
  intros fuel get client coll corpus w resp walk w' Hget Hvalid Hrun.
  destruct (download_and_index_valid fuel get client coll corpus w resp walk Hget Hvalid)
    as (w3 & dl & ul & Heq & _).
  rewrite Heq in Hrun. unfold monitor_indexing, bind, time_time, elapse in Hrun.
  apply poll_loop_effects in Hrun. destruct Hrun as (_ & _ & Hconv & _).
  destruct (Hconv eq_refl) as (Hsel & ps & Hps & Hpos & Htok & _).
  cbn [tokens_uploaded selected_corpus] in Htok, Hsel.
  exists ps. split; [exact Hps|]. split; [exact Htok|].
  split; [|now split].
  rewrite Htok. apply list_sum_at_least.
  intros d Hd. destruct (extracted_document corpus _ d Hd) as (_ & _ & _ & _ & Ht & _).
  now apply one_token_at_least.
Qed.

Lemma converged_statistics_count_the_catalog_witness :
  let fs := [Scenario.text_file "a.txt" "first"; Scenario.text_file "b.json" "second"] in
  exists ps,
    session_performance_stats
      (snd (download_and_index 10 (Scenario.archive_of fs) Scenario.steady
              "default" "maud" (empty_world 0)))
    = Some ps
    /\ total_tokens ps
       = list_sum (map (fun doc => count_tokens (content doc))
                       (flat_map (extracted "maud") (all_files (Scenario.walk_of fs))))
    /\ List.length (flat_map (extracted "maud") (all_files (Scenario.walk_of fs)))
       <= total_tokens ps
    /\ 0 < total_count ps
    /\ session_selected_corpus
         (snd (download_and_index 10 (Scenario.archive_of fs) Scenario.steady
                 "default" "maud" (empty_world 0)))
       = Some "maud".
Proof.
  cbv zeta.
  apply (converged_statistics_count_the_catalog 10
           (Scenario.archive_of
              [Scenario.text_file "a.txt" "first"; Scenario.text_file "b.json" "second"])
           Scenario.steady "default" "maud" (empty_world 0)
           (Scenario.response_of
              [Scenario.text_file "a.txt" "first"; Scenario.text_file "b.json" "second"])
           (Scenario.walk_of
              [Scenario.text_file "a.txt" "first"; Scenario.text_file "b.json" "second"])).
  - reflexivity.
  - split; [left; simpl; lia|reflexivity].
  - vm_compute. reflexivity.
Defined.

(* ===================================================================== *)
(** * More on the results shown *)
(* ===================================================================== *)

Lemma fold_check_answer content :
  forall answers a,
    found_answers (fold_left (check_answer content) answers a)
    = (found_answers a ++ filter (occurs_in content) answers)%list
    /\ matches_found (fold_left (check_answer content) answers a)
       = matches_found a + count (occurs_in content) answers.
Proof.
  induction answers as [|x answers IH]; intro a.
  - cbn. rewrite app_nil_r. unfold count. simpl. split; [reflexivity|lia].
  - cbn [fold_left filter]. rewrite count_cons.
    destruct (IH (check_answer content a x)) as [-> ->].
    unfold check_answer, occurs_in.
    destruct (Py.contains (Py.lower x) (Py.lower content)).
    + cbn [found_answers matches_found]. rewrite <- app_assoc. split; [reflexivity|lia].
    + split; [reflexivity|lia].
Qed.

Lemma show_results_total answers :
  forall results m,
    snd (show_results answers m results)
    = m + list_sum (map (fun item => count (occurs_in (result_content item)) answers) results)
    /\ List.length (fst (show_results answers m results)) = List.length results.
Proof.
  induction results as [|item results IH]; intro m.
  - cbn. split; [lia|reflexivity].
  - cbn [show_results].
    destruct (show_results answers (matches_found (annotate_result answers m item)) results)
      as [shown total] eqn:E.
    specialize (IH (matches_found (annotate_result answers m item))).
    rewrite E in IH. cbn [fst snd] in *. destruct IH as [-> IHl].
    unfold annotate_result.
    destruct (fold_check_answer (result_content item) answers
                {| highlighted_content := result_content item; found_answers := [];
                   matches_found := m |}) as [_ ->].
    cbn [matches_found map List.length]. split; [simpl; lia|now rewrite IHl].
Qed.

(** X11: for every result, the answers found are the expected answers
    that occur in its content, letter case apart, in the order of the
    expected answers and as often as they are listed; the result is
    marked as a match exactly when there is one; and the matches counted
    over all the results are the sum of these, so an answer found in two
    results counts twice. *)
Theorem matches_are_counted_with_multiplicity :
  forall answers matches_so_far results,
    (forall item m,
        found_answers (annotate_result answers m item)
        = filter (occurs_in (result_content item)) answers
        /\ (has_match answers item = true
            <-> found_answers (annotate_result answers m item) <> []))
    /\ snd (show_results answers matches_so_far results)
       = matches_so_far
         + list_sum (map (fun item => List.length (filter (occurs_in (result_content item))
                                                          answers))
                         results)
    /\ List.length (fst (show_results answers matches_so_far results)) = List.length results.
Proof.
  intros answers m0 results. split; [|exact (show_results_total answers results m0)].
  intros item m.
  unfold annotate_result.
  destruct (fold_check_answer (result_content item) answers
              {| highlighted_content := result_content item; found_answers := [];
                 matches_found := m |}) as [-> _].
  cbn [found_answers app]. split; [reflexivity|].
  unfold has_match. rewrite existsb_exists. split.
  - intros (x & Hin & Hx) Hnil.
    assert (Hfx : In x (filter (occurs_in (result_content item)) answers))
      by (apply filter_In; now split).
    rewrite Hnil in Hfx. contradiction.
  - intro Hne. destruct (filter (occurs_in (result_content item)) answers) as [|x l] eqn:E;
      [contradiction|].
    assert (Hfx : In x (filter (occurs_in (result_content item)) answers))
      by (rewrite E; now left).
    apply filter_In in Hfx. exists x. exact Hfx.
Qed.

Lemma len_app a b : Py.len (a ++ b) = Py.len a + Py.len b.
Proof.
  unfold Py.len. induction a as [|c a IH]; simpl; [reflexivity|]. now rewrite IH.
Qed.

(** X12: highlighting keeps the text: when the answer does not occur in
    the content the content is returned as it is; when it occurs, what is
    returned is the content with the two markers put in, so it is longer
    by the length of the markers only, and the text before, between and
    after the markers is the content: the text before the markers stops
    at the index at which the lowered answer is found in the lowered
    content, or at the end of the content if that comes first, and the
    text between them has the length of the answer, or what is left of
    the content if that is less; an empty answer always occurs, and puts
    an empty highlight at the start. *)
Theorem highlighting_only_adds_the_markers :
  forall content expected_answer,
    (occurs_in content expected_answer = false ->
     highlight_answer_in_content content expected_answer = content)
    /\ (occurs_in content expected_answer = true ->
        exists before span after,
          content = before ++ span ++ after
          /\ highlight_answer_in_content content expected_answer
             = before ++ MARK_OPEN ++ span ++ MARK_CLOSE ++ after
          /\ Z.of_nat (Py.len before)
             = Z.min (Py.find (Py.lower content) (Py.lower expected_answer))
                     (Z.of_nat (Py.len content))
          /\ Py.len span
             = Nat.min (Py.len expected_answer) (Py.len content - Py.len before)
          /\ Py.len (highlight_answer_in_content content expected_answer)
             = Py.len content + Py.len MARK_OPEN + Py.len MARK_CLOSE)
    /\ highlight_answer_in_content content EmptyString = MARK_OPEN ++ MARK_CLOSE ++ content.
Proof.
  intros content answer. split; [|split].
  - unfold occurs_in, highlight_answer_in_content. now intros ->.
  - unfold occurs_in. intro H.
    destruct (highlight_at_found_index content answer H)
      as (start & Hfind & (Hspan & Hlen & _) & Heq).
    exists (Py.take start content), (Py.take (Py.len answer) (Py.drop start content)),
           (Py.drop (start + Py.len answer) content).
    assert (Hsplit : content
                     = Py.take start content
                       ++ Py.take (Py.len answer) (Py.drop start content)
                       ++ Py.drop (start + Py.len answer) content).
    { rewrite <- (take_drop start content) at 1. f_equal.
      rewrite <- (take_drop (Py.len answer) (Py.drop start content)) at 1. f_equal.
      clear. revert content. induction start as [|start IH]; intro content.
      - now destruct content.
      - destruct content as [|c content]; [now destruct (Py.len answer)|apply IH]. }
    assert (Hl : Py.len (Py.take (Py.len answer) (Py.drop start content)) = Py.len answer).
    { rewrite <- (len_lower (Py.take _ _)), Hspan. apply len_lower. }
    assert (Hb : Py.len (Py.take start content) = start).
    { rewrite len_take. lia. }
    split; [exact Hsplit|]. split; [exact Heq|].
    split; [rewrite Hfind, Hb; lia|]. split; [rewrite Hl, Hb; lia|].
    assert (Hlc : Py.len content
                  = Py.len (Py.take start content)
                    + (Py.len (Py.take (Py.len answer) (Py.drop start content))
                       + Py.len (Py.drop (start + Py.len answer) content))).
    { rewrite Hsplit at 1. now rewrite !len_app. }
    rewrite Heq. unfold marked. rewrite !len_app. lia.
  - unfold highlight_answer_in_content. cbn [Py.lower].
    assert (Hc : Py.contains EmptyString (Py.lower content) = true)
      by (destruct (Py.lower content); reflexivity).
    assert (Hf : Py.find (Py.lower content) EmptyString = 0%Z)
      by (destruct (Py.lower content); reflexivity).
    rewrite Hc, Hf. cbn. now destruct content.
Qed.

(* ===================================================================== *)
(** * The steps around the ingestion branch *)
(* ===================================================================== *)

(** X13: on whatever [check_corpus_indexed] returns, step 2 shows the
    corpus as ready exactly when step 3 lets the queries through, which
    is exactly when the polling loop would converge: a positive total,
    all of it indexed.  Step 2 shows partial indexing exactly when a
    positive total is not all indexed, and shows the corpus as not
    indexed, with the button that downloads and indexes it, exactly when
    the index lists no document; this is also what a failed status query
    leads to. *)
Theorem steps_agree_on_the_status :
  forall client k coll corpus w,
  exists corpus_indexed indexed_count total_count w',
    check_corpus_indexed client k coll corpus w
      = (Ok (corpus_indexed, indexed_count, total_count), w')
    /\ (corpus_selection (corpus_indexed, indexed_count, total_count) = CorpusReady
        <-> query_blocked (corpus_indexed, indexed_count, total_count) = false)
    /\ (query_blocked (corpus_indexed, indexed_count, total_count) = false
        <-> (indexed_count =? total_count) && (0 <? total_count) = true)
    /\ (corpus_selection (corpus_indexed, indexed_count, total_count) = PartialIndexing
        <-> 0 < total_count /\ indexed_count < total_count)
    /\ (corpus_selection (corpus_indexed, indexed_count, total_count) = CorpusNotIndexed
        <-> total_count = 0)
    /\ (forall e,
          outcome (documents_get_info_list client k coll (corpus ++ "_")) = inl e ->
          corpus_selection (corpus_indexed, indexed_count, total_count) = CorpusNotIndexed
          /\ query_blocked (corpus_indexed, indexed_count, total_count) = true).
Proof.
  intros client k coll corpus w.
  rewrite check_corpus_indexed_eq.
  pose proof (snapshot_bounded client k coll corpus) as Hle.
  assert (Hfail : forall e,
             outcome (documents_get_info_list client k coll (corpus ++ "_")) = inl e ->
             snapshot client k coll corpus = (0, 0)).
  { intros e He. unfold snapshot. now rewrite He. }
  destruct (snapshot client k coll corpus) as [indexed total]. cbn [fst snd] in *.
  do 4 eexists. split; [reflexivity|].
  unfold corpus_selection, query_blocked.
  destruct (Nat.ltb_spec 0 total) as [Hpos|Hzero];
    destruct (Nat.eqb_spec indexed total) as [Heq|Hne];
    destruct (Nat.ltb_spec indexed total) as [Hlt|Hge];
    cbn [andb orb negb]; try lia.
  all: repeat split; try discriminate; try congruence; try lia; intros.
  all: try (specialize (Hfail _ H); injection Hfail as -> ->; lia).
  all: try match goal with H : _ /\ _ |- _ => destruct H; lia end.
Qed.

(** X14: setting up a collection never raises and shows nothing: it
    reports success when the collection was created and when the index
    answered that it exists already, by the same test on the message as
    the upload loop uses for a document; it reports failure, with the
    exception, in every other case. *)
Theorem collection_setup_tolerates_a_conflict :
  forall add collection_name w,
  exists success message w',
    create_or_get_collection add collection_name w = (Ok (success, message), w')
    /\ page w' = page w
    /\ sent w' = sent w
    /\ (kind_of add = Fresh ->
        success = true /\ message = CreatedNewCollection collection_name)
    /\ (kind_of add = Conflict ->
        success = true /\ message = UsingExistingCollection collection_name)
    /\ (kind_of add = Failed ->
        success = false
        /\ exists e, outcome add = inl e /\ message = FailedToCreateCollection e).
Proof.
  intros add collection_name w.
  unfold create_or_get_collection, kind_of, is_conflict, try_except, bind, receive, ret.
  destruct (outcome add) as [e|u].
  - destruct (Py.contains "409" (str e) || Py.contains "already exists" (Py.lower (str e))).
    + do 3 eexists. split; [reflexivity|]. repeat split; try discriminate.
    + do 3 eexists. split; [reflexivity|]. repeat split; try discriminate.
      exists e. now split.
  - do 3 eexists. split; [reflexivity|]. repeat split; try discriminate.
Qed.

Lemma take_all n s : Py.len s <= n -> Py.take n s = s.
Proof.
  unfold Py.len. revert s. induction n as [|n IH]; intros [|c s]; simpl; intro H;
    try reflexivity; try lia.
  rewrite IH; [reflexivity|lia].
Qed.

Lemma take_take n m s : n <= m -> Py.take n (Py.take m s) = Py.take n s.
Proof.
  revert m s. induction n as [|n IH]; intros [|m] [|c s] H; simpl; try reflexivity; try lia.
  rewrite IH; [reflexivity|lia].
Qed.

Lemma take_app_le n a b : n <= Py.len a -> Py.take n (a ++ b) = Py.take n a.
Proof.
  unfold Py.len. revert a. induction n as [|n IH]; intros [|c a] H; simpl in *;
    try reflexivity; try lia.
  rewrite IH; [reflexivity|lia].
Qed.

(** X15: the preview of a document has one page; its text is the
    content when the content has at most 2000 characters, and otherwise
    the first 2000 characters followed by three dots; so it never has
    more than 2003 characters and always starts as the content does. *)
Theorem document_preview_is_bounded :
  forall content,
  exists text,
    pages (parse_document_with_api content) = [text]
    /\ Py.len text <= 2003
    /\ (Py.len content <= 2000 -> text = content)
    /\ (2000 < Py.len content ->
        text = Py.take 2000 content ++ "..." /\ Py.len text = 2003)
    /\ Py.take 2000 text = Py.take 2000 content.
Proof.
  intro content. unfold parse_document_with_api. cbn [pages].
  eexists. split; [reflexivity|].
  unfold Py.slice_to. change 2000%Z with (Z.of_nat 2000). rewrite bound_of_nat.
  destruct (Nat.ltb_spec 2000 (Py.len content)) as [Hlong|Hshort].
  - rewrite Nat.min_l by lia.
    assert (Hl : Py.len (Py.take 2000 content ++ "...") = 2003).
    { rewrite len_app, len_take, Nat.min_l by lia. reflexivity. }
    split; [lia|]. split; [lia|]. split; [now split|].
    rewrite take_app_le by (rewrite len_take; lia).
    apply take_take. lia.
  - split; [lia|]. split; [reflexivity|]. split; [lia|reflexivity].
Qed.

Lemma drop_drop n m s : Py.drop n (Py.drop m s) = Py.drop (m + n) s.
Proof.
  revert s. induction m as [|m IH]; intros s.
  - now destruct s.
  - destruct s as [|c s]; simpl; [now destruct n|apply IH].
Qed.

Lemma drop_all n s : Py.len s <= n -> Py.drop n s = EmptyString.
Proof.
  unfold Py.len. revert s. induction n as [|n IH]; intros [|c s]; simpl; intro H;
    try reflexivity; try lia.
  apply IH. lia.
Qed.

Lemma bound_minus_four n : Py.bound (-4) n = n - 4.
Proof. unfold Py.bound. change (-4 <? 0)%Z with true. cbv iota. lia. Qed.

(** X16: the key shown on the page is the first four characters of the
    key, three dots and its last four characters: at most eleven
    characters.  A key of at most eight characters is shown whole: its
    characters are those before the dots followed by an end of those
    after the dots. *)
Theorem masked_key_shows_short_keys :
  forall api_key,
    masked_key api_key
    = Py.take 4 api_key ++ "..." ++ Py.drop (Py.len api_key - 4) api_key
    /\ Py.len (masked_key api_key) = 2 * Nat.min 4 (Py.len api_key) + 3
    /\ (Py.len api_key <= 8 ->
        api_key
        = Py.slice_to api_key 4
          ++ Py.drop (Nat.min 4 (Py.len api_key) - (Py.len api_key - 4))
                     (Py.slice_from api_key (-4))).
Proof.
  intro api_key. unfold masked_key, Py.slice_to, Py.slice_from.
  change 4%Z with (Z.of_nat 4). rewrite bound_of_nat, bound_minus_four.
  assert (Htake : Py.take (Nat.min 4 (Py.len api_key)) api_key = Py.take 4 api_key).
  { destruct (Nat.le_ge_cases 4 (Py.len api_key)) as [H|H].
    - now rewrite Nat.min_l.
    - rewrite Nat.min_r by exact H. rewrite !take_all; [reflexivity|lia|lia]. }
  rewrite Htake. split; [reflexivity|]. split.
  - rewrite !len_app, len_take, len_drop. change (Py.len "...") with 3. lia.
  - intro Hshort. rewrite drop_drop.
    replace (Py.len api_key - 4 + (Nat.min 4 (Py.len api_key) - (Py.len api_key - 4)))
      with (Nat.min 4 (Py.len api_key)) by lia.
    rewrite <- Htake. symmetry. apply take_drop.
Qed.

Lemma fetch_queries_ok {V : Type} (get : exn + queries_response V) data :
  fetch_queries get = inr data
  <-> exists response,
        get = inr response
        /\ (queries_status_code response < 400 \/ 600 <= queries_status_code response)
        /\ json response = inr data.
Proof.
  unfold fetch_queries. split.
  - destruct get as [e|response]; [discriminate|].
    destruct ((400 <=? queries_status_code response)
              && (queries_status_code response <? 600)) eqn:E; [discriminate|].
    intro H. exists response. split; [reflexivity|]. split; [|exact H].
    apply andb_false_iff in E. destruct E as [E|E].
    + left. now apply Nat.leb_gt.
    + right. now apply Nat.ltb_ge.
  - intros (response & -> & Hstatus & Hjson).
    assert (E : (400 <=? queries_status_code response)
                && (queries_status_code response <? 600) = false).
    { apply andb_false_iff. destruct Hstatus as [H|H].
      - left. now apply Nat.leb_gt.
      - right. now apply Nat.ltb_ge. }
    now rewrite E.
Qed.

Lemma has_tests_item items :
  existsb (fun item : option string =>
             match item with
             | Some text => String.eqb text "tests"
             | None => false
             end) items = true
  <-> In (Some "tests") items.
Proof.
  rewrite existsb_exists. split.
  - intros ([text|] & Hin & H); [|discriminate H].
    apply String.eqb_eq in H. now subst text.
  - intro Hin. exists (Some "tests"). split; [exact Hin|reflexivity].
Qed.

(** The test of the loader lets an object with the key tests through,
    raises a TypeError on the other values that pass it, and stops the
    script on the rest. *)
Lemma store_queries_cases {V : Type} (data : json_value V) :
  (exists value other, data = JObject (Some value) other
                       /\ store_queries data = (Ok value, []))
  \/ (passes_for_an_object data
      /\ store_queries data = (Raise (Exception "TypeError"), []))
  \/ (~ passes_for_an_object data
      /\ (forall value other, data <> JObject (Some value) other)
      /\ store_queries data = (Stop, [FailedToLoadQueries])).
Proof.
  unfold passes_for_an_object.
  destruct data as [[value|] other|items|text|[|]|[|]|].
  - left. now exists value, other.
  - right. right. split; [|split].
    + intros [(items & H & _)|[(text & H & _)|[H|H]]]; discriminate H.
    + intros value other' H. discriminate H.
    + now destruct other.
  - unfold store_queries. cbn [json_truthy has_tests tests_of].
    destruct (existsb _ items) eqn:E.
    + right. left. split.
      * left. exists items. split; [reflexivity|]. now apply has_tests_item.
      * destruct items as [|item items]; [discriminate E|reflexivity].
    + right. right. split; [|split].
      * intros [(items' & H & Hin)|[(text & H & _)|[H|H]]]; try discriminate H.
        injection H as <-. apply has_tests_item in Hin. congruence.
      * intros value other' H. discriminate H.
      * now destruct (negb _).
  - unfold store_queries. cbn [json_truthy has_tests tests_of].
    destruct (Py.contains "tests" text) eqn:E.
    + right. left. split.
      * right. left. now exists text.
      * destruct text as [|c text]; [discriminate E|reflexivity].
    + right. right. split; [|split].
      * intros [(items' & H & _)|[(text' & H & Hin)|[H|H]]]; try discriminate H.
        injection H as <-. congruence.
      * intros value other' H. discriminate H.
      * now destruct (Py.truthy text).
  - right. left. split; [|reflexivity]. right. right. now left.
  - right. right. split; [|split; [|reflexivity]].
    + intros [(items' & H & _)|[(text' & H & _)|[H|H]]]; discriminate H.
    + intros value other' H. discriminate H.
  - right. left. split; [|reflexivity]. right. right. now right.
  - right. right. split; [|split; [|reflexivity]].
    + intros [(items' & H & _)|[(text' & H & _)|[H|H]]]; discriminate H.
    + intros value other' H. discriminate H.
  - right. right. split; [|split; [|reflexivity]].
    + intros [(items' & H & _)|[(text' & H & _)|[H|H]]]; discriminate H.
    + intros value other' H. discriminate H.
Qed.

(** X17: loading the benchmark.  The value under the key tests is
    stored exactly when the request returned, with a status that is not
    an error, a JSON object that has the key; then nothing is shown.  A
    TypeError is raised, with nothing shown, exactly when the request
    returned, with such a status, a JSON value that passes the test of
    the loader without being an object: an array with the item tests, a
    string with tests in it, a number that is not zero, or true.  In
    every other case the script is stopped after an error is shown, and
    a failed download is reported twice, by [download_queries], which
    returns the empty object, and by its caller. *)
Theorem queries_load_or_stop :
  forall (V : Type) (get : exn + queries_response V),
    (forall value,
        fst (load_queries get) = Ok value
        <-> exists response other,
              get = inr response
              /\ (queries_status_code response < 400 \/ 600 <= queries_status_code response)
              /\ json response = inr (JObject (Some value) other))
    /\ (forall value, fst (load_queries get) = Ok value -> snd (load_queries get) = [])
    /\ (forall e,
          fst (load_queries get) = Raise e
          <-> e = Exception "TypeError"
              /\ exists response data,
                   get = inr response
                   /\ (queries_status_code response < 400
                       \/ 600 <= queries_status_code response)
                   /\ json response = inr data
                   /\ passes_for_an_object data)
    /\ (forall e, fst (load_queries get) = Raise e -> snd (load_queries get) = [])
    /\ (fst (load_queries get) = Stop ->
        (exists e, fetch_queries get = inl e
                   /\ fst (download_queries get) = no_queries
                   /\ snd (load_queries get) = [FailedToDownloadQueries e; FailedToLoadQueries])
        \/ (exists data, fetch_queries get = inr data
                         /\ snd (load_queries get) = [FailedToLoadQueries])).
Proof.
  intros V get. unfold load_queries, download_queries.
  destruct (fetch_queries get) as [e0|data] eqn:Hfetch.
  - change (store_queries (@no_queries V)) with (@Stop V, [FailedToLoadQueries]).
    cbn [fst snd app].
    split; [|split; [discriminate|split; [|split; [discriminate|]]]].
    + intro value. split; [discriminate|].
      intros (response & other & Hget & Hstatus & Hjson).
      assert (H : fetch_queries get = inr (JObject (Some value) other))
        by (apply fetch_queries_ok; now exists response).
      congruence.
    + intro e. split; [discriminate|].
      intros (_ & response & data & Hget & Hstatus & Hjson & _).
      assert (H : fetch_queries get = inr data)
        by (apply fetch_queries_ok; now exists response).
      congruence.
    + intros _. left. exists e0. now repeat split.
  - assert (Hback : forall response data',
              get = inr response ->
              queries_status_code response < 400 \/ 600 <= queries_status_code response ->
              json response = inr data' -> data' = data).
    { intros response data' Hget Hstatus Hjson.
      assert (H : fetch_queries get = inr data')
        by (apply fetch_queries_ok; now exists response).
      congruence. }
    apply fetch_queries_ok in Hfetch. destruct Hfetch as (response & Hget & Hstatus & Hjson).
    destruct (store_queries_cases data)
      as [(value & other & Hdata & ->)|[(Hpass & ->)|(Hnot & Hobj & ->)]];
      cbn [fst snd app].
    + split; [|split; [reflexivity|split; [|split; [discriminate|discriminate]]]].
      * intro v. split.
        -- intro H. injection H as <-. exists response, other. subst data. now repeat split.
        -- intros (response' & other' & Hget' & Hstatus' & Hjson').
           pose proof (Hback _ _ Hget' Hstatus' Hjson') as E. rewrite Hdata in E.
           injection E as -> _. reflexivity.
      * intro e. split; [discriminate|].
        intros (_ & response' & data' & Hget' & Hstatus' & Hjson' & Hpass).
        rewrite (Hback _ _ Hget' Hstatus' Hjson'), Hdata in Hpass.
        destruct Hpass as [(items & H & _)|[(text & H & _)|[H|H]]]; discriminate H.
    + split; [|split; [discriminate|split; [|split; [reflexivity|discriminate]]]].
      * intro v. split; [discriminate|].
        intros (response' & other' & Hget' & Hstatus' & Hjson').
        rewrite <- (Hback _ _ Hget' Hstatus' Hjson') in Hpass.
        destruct Hpass as [(items & H & _)|[(text & H & _)|[H|H]]]; discriminate H.
      * intro e. split.
        -- intro H. injection H as <-. split; [reflexivity|].
           exists response, data. now repeat split.
        -- intros [-> _]. reflexivity.
    + split; [|split; [discriminate|split; [|split; [discriminate|]]]].
      * intro v. split; [discriminate|].
        intros (response' & other' & Hget' & Hstatus' & Hjson').
        pose proof (Hback _ _ Hget' Hstatus' Hjson') as E. symmetry in E.
        now apply Hobj in E.
      * intro e. split; [discriminate|].
        intros (_ & response' & data' & Hget' & Hstatus' & Hjson' & Hpass).
        rewrite (Hback _ _ Hget' Hstatus' Hjson') in Hpass. contradiction.
      * intros _. right. exists data. split; reflexivity.
Qed.

(** A body that is the JSON array of the one string tests passes the
    test of the loader, which then indexes the list with a string: a
    TypeError that nothing catches. *)
Example array_of_tests_breaks_the_loader :
  load_queries (V := list benchmark_test)
    (inr {| queries_status_code := 200; json := inr (JArray [Some "tests"]) |})
  = (Raise (Exception "TypeError"), []).
Proof. reflexivity. Qed.

(* ===================================================================== *)
(** * The statistics panel *)
(* ===================================================================== *)

Lemma true_div_zero a b : (b == 0)%Q -> true_div a b = inl (Exception "float division by zero").
Proof. intro H. unfold true_div. apply Qeq_bool_iff in H. now rewrite H. Qed.

Lemma true_div_nonzero a b : ~ (b == 0)%Q -> true_div a b = inr (a / b)%Q.
Proof.
  intro H. unfold true_div. destruct (Qeq_bool b 0) eqn:E; [|reflexivity].
  apply Qeq_bool_iff in E. contradiction.
Qed.

(** X18: the statistics panel divides by the total time without a test:
    on statistics whose total time is zero it raises after the four
    times have been shown, and the statistics stay in the session; on
    any other statistics it shows eight metrics and removes the
    statistics from the session, so they are shown once.  The index rate
    reads Instant exactly when the indexing time is not positive, a
    negative one included; the average size is the tokens per document
    whenever the document count is positive. *)
Theorem statistics_panel :
  forall w stats,
    session_performance_stats w = Some stats ->
    ((total_time stats == 0)%Q ->
     exists e,
       show_performance_stats w
       = ([DownloadTimeMetric (download_time stats); UploadTimeMetric (upload_time stats);
           IndexingTimeMetric (indexing_time stats); TotalTimeMetric (total_time stats)],
          Raise e, w))
    /\ (~ (total_time stats == 0)%Q ->
        exists shown w',
          show_performance_stats w = (shown, Ok tt, w')
          /\ List.length shown = 8
          /\ session_performance_stats w' = None
          /\ show_performance_stats w' = ([], Ok tt, w')
          /\ (In (PureIndexRate None) shown <-> (indexing_time stats <= 0)%Q)
          /\ (0 < total_count stats ->
              In (AvgDocSize (ratio (total_tokens stats) (total_count stats))) shown)).
Proof.
  intros w stats Hstats. unfold show_performance_stats. rewrite Hstats.
  unfold performance_panel. cbv zeta. split.
  - intro Hzero. rewrite (true_div_zero _ _ Hzero). eexists. reflexivity.
  - intro Hnonzero. rewrite !(true_div_nonzero _ _ Hnonzero).
    do 2 eexists. split; [reflexivity|]. split; [reflexivity|].
    split; [reflexivity|]. split; [reflexivity|]. split.
    + destruct (Qgtb (indexing_time stats) 0) eqn:E.
      * apply Qgtb_true in E. split.
        -- intro Hin. cbn in Hin.
           repeat (destruct Hin as [Hin|Hin]; [discriminate Hin|]). contradiction.
        -- intro Hle. exfalso. exact (Qlt_not_le _ _ E Hle).
      * apply Qgtb_false in E. split; [intros _; exact E|].
        intros _. cbn. do 6 right. now left.
    + intro Hpos. apply Nat.ltb_lt in Hpos. rewrite Hpos. cbn. do 7 right. now left.
Qed.

Lemma statistics_panel_witness :
  let stats := {| total_time := 10; download_time := 2; upload_time := 3;
                  indexing_time := 5; total_count := 4; total_tokens := 40 |} in
  let w := {| now := 0%Q; page := []; sent := [];
              session_performance_stats := Some stats;
              session_selected_corpus := Some "maud" |} in
  ((total_time stats == 0)%Q ->
   exists e,
     show_performance_stats w
     = ([DownloadTimeMetric (download_time stats); UploadTimeMetric (upload_time stats);
         IndexingTimeMetric (indexing_time stats); TotalTimeMetric (total_time stats)],
        Raise e, w))
  /\ (~ (total_time stats == 0)%Q ->
      exists shown w',
        show_performance_stats w = (shown, Ok tt, w')
        /\ List.length shown = 8
        /\ session_performance_stats w' = None
        /\ show_performance_stats w' = ([], Ok tt, w')
        /\ (In (PureIndexRate None) shown <-> (indexing_time stats <= 0)%Q)
        /\ (0 < total_count stats ->
            In (AvgDocSize (ratio (total_tokens stats) (total_count stats))) shown)).
Proof.
  cbv zeta.
  apply (statistics_panel
           {| now := 0%Q; page := []; sent := [];
              session_performance_stats :=
                Some {| total_time := 10; download_time := 2; upload_time := 3;
                        indexing_time := 5; total_count := 4; total_tokens := 40 |};
              session_selected_corpus := Some "maud" |}).
  reflexivity.
Defined.

(* ===================================================================== *)
(** * The e-mail lookup *)
(* ===================================================================== *)

Lemma cached_cons_same cache username email :
  cached ((username, email) :: cache) username = Some email.
Proof. cbn [cached]. now rewrite String.eqb_refl. Qed.

Lemma cached_cons_other cache username email other :
  other <> username -> cached ((username, email) :: cache) other = cached cache other.
Proof.
  intro H. cbn [cached]. destruct (String.eqb_spec username other) as [E|E]; [|reflexivity].
  congruence.
Qed.

(** X19: the lookup remembers its answer: after a call the cache holds
    the e-mail returned for that user, and the entries of the other
    users are as before; a later call for the same user returns the same
    e-mail without a request and without a change of the cache, whatever
    the events would be then; a request is made exactly when the user
    has no entry. *)
Theorem email_lookup_is_memoised :
  forall username cache events,
    let '(email, cache', requested) := get_user_email username cache events in
    cached cache' username = Some email
    /\ (forall other, other <> username -> cached cache' other = cached cache other)
    /\ (forall events', get_user_email username cache' events' = (email, cache', false))
    /\ (requested = true <-> cached cache username = None).
Proof.
  intros username cache events. unfold get_user_email.
  destruct (cached cache username) as [known|] eqn:Hknown.
  - split; [exact Hknown|]. split; [reflexivity|].
    split; [|split; discriminate].
    intro events'. unfold get_user_email. now rewrite Hknown.
  - assert (Hnew : forall email,
               cached ((username, email) :: cache) username = Some email
               /\ (forall other, other <> username ->
                     cached ((username, email) :: cache) other = cached cache other)
               /\ (forall events',
                     get_user_email username ((username, email) :: cache) events'
                     = (email, (username, email) :: cache, false))
               /\ (true = true <-> None = (None : option string))).
    { intro email. split; [apply cached_cons_same|].
      split; [intros other Ho; now apply cached_cons_other|].
      split; [|now split].
      intro events'. unfold get_user_email. now rewrite cached_cons_same. }
    destruct events as [[|event events]|]; try apply Hnew.
    destruct (first_public_email (event :: events)); apply Hnew.
Qed.

Lemma find_app {A : Type} (p : A -> bool) (a b : list A) :
  List.find p (a ++ b)
  = match List.find p a with Some x => Some x | None => List.find p b end.
Proof.
  induction a as [|x a IH]; [reflexivity|]. cbn [app List.find].
  now destruct (p x).
Qed.

Lemma find_first_passing {A : Type} (p : A -> bool) (before after : list A) (x : A) :
  (forall y, In y before -> p y = false) -> p x = true ->
  List.find p (before ++ x :: after) = Some x.
Proof.
  intros Hbefore Hx. induction before as [|y before IH]; cbn [app List.find].
  - now rewrite Hx.
  - rewrite (Hbefore y (or_introl eq_refl)). apply IH.
    intros z Hz. apply Hbefore. now right.
Qed.

Lemma find_none_passing {A : Type} (p : A -> bool) (l : list A) :
  (forall y, In y l -> p y = false) -> List.find p l = None.
Proof.
  intro H. induction l as [|y l IH]; [reflexivity|]. cbn [List.find].
  rewrite (H y (or_introl eq_refl)). apply IH. intros z Hz. apply H. now right.
Qed.

(** The two loops return the first of the pushed e-mails that is not a
    no-reply address. *)
Lemma first_public_commit_find commits :
  first_public_commit commits
  = List.find (fun email => negb (is_noreply email)) (map author_email commits).
Proof.
  induction commits as [|c commits IH]; [reflexivity|].
  cbn [first_public_commit map List.find]. unfold is_noreply at 1.
  now destruct (negb _).
Qed.

Lemma first_public_email_find events :
  first_public_email events
  = List.find (fun email => negb (is_noreply email)) (pushed_emails events).
Proof.
  induction events as [|event events IH]; [reflexivity|].
  cbn [first_public_email pushed_emails flat_map]. rewrite find_app.
  destruct (String.eqb (event_type event) "PushEvent"); [|exact IH].
  destruct (payload_commits event) as [commits|]; [|exact IH].
  rewrite first_public_commit_find.
  destruct (List.find _ (map author_email commits)); [reflexivity|exact IH].
Qed.

(** X20: for a user that has no entry, the lookup never returns a
    no-reply address of GitHub.  Without events (a failed request, or an
    empty list) it returns Not found (no public events).  Otherwise it
    returns the first e-mail, in the order of the events and of their
    commits, of a commit of a push event that is not a no-reply address;
    and when the push events have only no-reply addresses, or no commit
    at all, it returns Not found, not one of them. *)
Theorem email_lookup_never_returns_noreply :
  forall username cache events,
    cached cache username = None ->
    let email := fst (fst (get_user_email username cache events)) in
    is_noreply email = false
    /\ (events = None \/ events = Some [] -> email = "Not found (no public events)")
    /\ (forall evs,
          events = Some evs ->
          evs <> [] ->
          (forall before found after,
              pushed_emails evs = (before ++ found :: after)%list ->
              (forall other, In other before -> is_noreply other = true) ->
              is_noreply found = false ->
              email = found)
          /\ ((forall other, In other (pushed_emails evs) -> is_noreply other = true) ->
              email = "Not found")).
Proof.
  intros username cache events Hnone. cbv zeta.
  unfold get_user_email. rewrite Hnone.
  destruct events as [[|event events]|].
  - split; [reflexivity|]. split; [reflexivity|].
    intros evs H Hne. injection H as <-. contradiction.
  - rewrite first_public_email_find. split; [|split].
    + destruct (List.find _ _) as [email|] eqn:E; [|reflexivity].
      apply find_some in E. destruct E as [_ E]. cbn [fst].
      now apply negb_true_iff in E.
    + intros [H|H]; discriminate H.
    + intros evs H _. injection H as <-. split.
      * intros before found after Hsplit Hbefore Hfound.
        rewrite Hsplit, find_first_passing; [reflexivity| |now rewrite Hfound].
        intros other Hin. now rewrite (Hbefore other Hin).
      * intro Hall. rewrite find_none_passing; [reflexivity|].
        intros other Hin. now rewrite (Hall other Hin).
  - split; [reflexivity|]. split; [reflexivity|]. discriminate.
Qed.

Lemma email_lookup_never_returns_noreply_witness :
  let events :=
    Some [ {| event_type := "WatchEvent"; payload_commits := None |};
           {| event_type := "PushEvent";
              payload_commits :=
                Some [ {| author_email := "1+bob@users.noreply.github.com" |};
                       {| author_email := "bob@example.org" |};
                       {| author_email := "robert@example.org" |} ] |} ] in
  let email := fst (fst (get_user_email "bob" [] events)) in
  is_noreply email = false
  /\ (events = None \/ events = Some [] -> email = "Not found (no public events)")
  /\ (forall evs,
        events = Some evs ->
        evs <> [] ->
        (forall before found after,
            pushed_emails evs = (before ++ found :: after)%list ->
            (forall other, In other before -> is_noreply other = true) ->
            is_noreply found = false ->
            email = found)
        /\ ((forall other, In other (pushed_emails evs) -> is_noreply other = true) ->
            email = "Not found")).
Proof.
  cbv zeta.
  apply (email_lookup_never_returns_noreply "bob" []
           (Some [ {| event_type := "WatchEvent"; payload_commits := None |};
                   {| event_type := "PushEvent";
                      payload_commits :=
                        Some [ {| author_email := "1+bob@users.noreply.github.com" |};
                               {| author_email := "bob@example.org" |};
                               {| author_email := "robert@example.org" |} ] |} ])).
  reflexivity.
Defined.

(** In that lookup the no-reply address is passed over and the next
    e-mail is returned; with the no-reply address alone, Not found is. *)
Example lookup_passes_over_a_noreply_address :
  fst (fst (get_user_email "bob" []
              (Some [ {| event_type := "WatchEvent"; payload_commits := None |};
                      {| event_type := "PushEvent";
                         payload_commits :=
                           Some [ {| author_email := "1+bob@users.noreply.github.com" |};
                                  {| author_email := "bob@example.org" |};
                                  {| author_email := "robert@example.org" |} ] |} ])))
  = "bob@example.org"
  /\ fst (fst (get_user_email "bob" []
                 (Some [ {| event_type := "PushEvent";
                            payload_commits :=
                              Some [ {| author_email := "1+bob@users.noreply.github.com" |} ]
                         |} ])))
     = "Not found".
Proof. split; reflexivity. Qed.

(* ===================================================================== *)
(** * Reaching convergence *)
(* ===================================================================== *)

Lemma waiting_time_nonneg svc coll corpus :
  (forall j, (0 <= status_delay svc j coll corpus)%Q) ->
  (forall j, (0 <= oversleep (wall_clock svc) j)%Q) ->
  forall n k, (0 <= waiting_time svc coll corpus k n)%Q.
Proof.
  intros Hdelay Hsleep n. induction n as [|n IH]; intro k; cbn [waiting_time].
  - apply Qle_refl.
  - specialize (Hdelay k). specialize (Hsleep k). specialize (IH (S k)).
    unfold check_interval. lra.
Qed.

(** If tick [k + n] is the first from [k] on whose snapshot is fully
    indexed, and the passes before it leave it within the time, the loop
    converges on that tick, after [n + 1] status queries. *)
Lemma poll_loop_reaches_convergence c :
  (forall j, (0 <= status_delay (client c) j (collection_name c) (selected_corpus c))%Q) ->
  (forall j, (0 <= oversleep (wall_clock (client c)) j)%Q) ->
  forall n k w fuel,
    (forall j, j < n ->
       fully_indexed (client c) (collection_name c) (selected_corpus c) (k + j) = false) ->
    fully_indexed (client c) (collection_name c) (selected_corpus c) (k + n) = true ->
    (now w - monitoring_start_time c
     + waiting_time (client c) (collection_name c) (selected_corpus c) k n
     <= max_wait_time)%Q ->
    n < fuel ->
    exists w',
      poll_loop fuel c k w = (Ok (Some Converged), w')
      /\ status_queries (sent w') = status_queries (sent w) + S n.
Proof.
  intros Hdelay Hsleep n.
  induction n as [|n IH]; intros k w fuel Hbefore Hfull Htime Hfuel.
  - destruct fuel as [|fuel]; [lia|].
    cbn [waiting_time] in Htime. rewrite Nat.add_0_r in Hfull.
    assert (H : (now w - monitoring_start_time c <= max_wait_time)%Q) by lra.
    rewrite poll_loop_unfold, (poll_iteration_tick c k w H). cbv zeta.
    unfold fully_indexed in Hfull. rewrite Hfull.
    eexists. split; [reflexivity|].
    cbn [sent converged status_checked]. rewrite status_queries_app. cbn. lia.
  - destruct fuel as [|fuel]; [lia|].
    cbn [waiting_time] in Htime.
    pose proof (waiting_time_nonneg _ _ _ Hdelay Hsleep n (S k)) as Hrest.
    pose proof (Hdelay k) as Hk. pose proof (Hsleep k) as Hs.
    assert (H : (now w - monitoring_start_time c <= max_wait_time)%Q)
      by (unfold check_interval in Htime; lra).
    rewrite poll_loop_unfold, (poll_iteration_tick c k w H). cbv zeta.
    pose proof (Hbefore 0 ltac:(lia)) as Hnot. rewrite Nat.add_0_r in Hnot.
    unfold fully_indexed in Hnot. rewrite Hnot.
    match goal with
    | |- context [poll_loop fuel c (S k) ?w1] =>
        destruct (IH (S k) w1 fuel) as (w' & Hrun & Hq)
    end.
    + intros j Hj. replace (S k + j) with (k + S j) by lia. apply Hbefore. lia.
    + replace (S k + n) with (k + S n) by lia. exact Hfull.
    + cbn [now elapsed shown status_checked]. lra.
    + lia.
    + exists w'. split; [exact Hrun|]. rewrite Hq.
      cbn [sent elapsed shown status_checked]. rewrite status_queries_app. cbn. lia.
Qed.

(** A loop that converges has met a fully indexed snapshot. *)
Lemma poll_loop_converged_on c :
  forall fuel k w w',
    poll_loop fuel c k w = (Ok (Some Converged), w') ->
    exists j, k <= j
              /\ fully_indexed (client c) (collection_name c) (selected_corpus c) j = true.
Proof.
  intros fuel. induction fuel as [|fuel IH]; intros k w w' Hrun; [discriminate Hrun|].
  rewrite poll_loop_unfold in Hrun.
  destruct (Qlt_le_dec max_wait_time (now w - monitoring_start_time c)) as [H|H].
  - rewrite (poll_iteration_timed_out c k w H) in Hrun. discriminate Hrun.
  - rewrite (poll_iteration_tick c k w H) in Hrun. cbv zeta in Hrun.
    destruct (_ && _) eqn:E.
    + exists k. split; [lia|exact E].
    + apply IH in Hrun. destruct Hrun as (j & Hj & Hfull). exists j. split; [lia|exact Hfull].
Qed.

(** X21: the poller converges when the index does so in time.  If the
    clock does not run backwards during the status queries and the
    sleeps, tick n is the first whose snapshot lists documents that are
    all indexed, and the time before the first pass, the status queries
    and the sleeps of the n ticks before tick n take no more than the 600
    seconds allowed, then the loop, given more than n passes, ends
    Converged on tick n, after n + 1 status queries, and selects the
    corpus. *)
Theorem poller_converges_when_the_index_does :
  forall fuel n svc coll corpus t_start t_download t_upload n_tokens w,
    (forall j, (0 <= status_delay svc j coll corpus)%Q) ->
    (forall j, (0 <= oversleep (wall_clock svc) j)%Q) ->
    (forall j, j < n -> fully_indexed svc coll corpus j = false) ->
    fully_indexed svc coll corpus n = true ->
    (pause (wall_clock svc) FirstPass + waiting_time svc coll corpus 0 n
     <= max_wait_time)%Q ->
    n < fuel ->
    exists w',
      monitor_indexing fuel svc coll corpus t_start t_download t_upload n_tokens w
      = (Ok (Some Converged), w')
      /\ status_queries (sent w') = status_queries (sent w) + S n
      /\ session_selected_corpus w' = Some corpus.
Proof.
  intros fuel n svc coll corpus dst dl ul tok w Hdelay Hsleep Hbefore Hfull Htime Hfuel.
  unfold monitor_indexing, bind, time_time, elapse.
  match goal with
  | |- context [poll_loop fuel ?c 0 ?w1] =>
      destruct (poll_loop_reaches_convergence c Hdelay Hsleep n 0 w1 fuel)
        as (w' & Hrun & Hq);
      [exact Hbefore|exact Hfull| |exact Hfuel|]
  end.
  - cbn [monitoring_start_time client collection_name selected_corpus now]. lra.
  - exists w'. split; [exact Hrun|]. split; [exact Hq|].
    apply poll_loop_effects in Hrun. destruct Hrun as (_ & _ & Hconv & _).
    destruct (Hconv eq_refl) as [Hsel _]. exact Hsel.
Qed.

Lemma poller_converges_when_the_index_does_witness :
  exists w',
    monitor_indexing 10 Scenario.steady "default" "maud" 0 2 3 6 (empty_world 5)
    = (Ok (Some Converged), w')
    /\ status_queries (sent w') = status_queries (sent (empty_world 5)) + 3
    /\ session_selected_corpus w' = Some "maud".
Proof.
  apply (poller_converges_when_the_index_does 10 2 Scenario.steady "default" "maud"
           0 2 3 6 (empty_world 5)).
  - exact (proj2 (proj2 steady_clock)).
  - exact (proj1 (proj2 steady_clock)).
  - intros [|[|j]] Hj; [reflexivity|reflexivity|lia].
  - reflexivity.
  - vm_compute. discriminate.
  - lia.
Defined.

(** A loop that times out says so last. *)
Lemma poll_loop_timed_out_page c :
  forall fuel k w w',
    poll_loop fuel c k w = (Ok (Some TimedOut), w') ->
    exists evs, page w' = (page w ++ evs ++ [Warning (TimeoutReached max_wait_time)])%list.
Proof.
  intros fuel. induction fuel as [|fuel IH]; intros k w w' Hrun; [discriminate Hrun|].
  rewrite poll_loop_unfold in Hrun.
  destruct (Qlt_le_dec max_wait_time (now w - monitoring_start_time c)) as [H|H].
  - rewrite (poll_iteration_timed_out c k w H) in Hrun. injection Hrun as <-.
    exists []. reflexivity.
  - rewrite (poll_iteration_tick c k w H) in Hrun. cbv zeta in Hrun.
    destruct (_ && _); [discriminate Hrun|].
    apply IH in Hrun. destruct Hrun as (evs & Hpage).
    destruct (status_checked_page (client c) k (collection_name c) (selected_corpus c) w)
      as (evs1 & Hpage1 & _).
    cbn [page elapsed shown] in Hpage. rewrite Hpage1, <- !app_assoc in Hpage.
    exists (evs1
            ++ tick_report
                 (fst (snapshot (client c) k (collection_name c) (selected_corpus c)))
                 (snd (snapshot (client c) k (collection_name c) (selected_corpus c)))
                 (now w - monitoring_start_time c)%Q
            ++ evs)%list.
    rewrite Hpage, <- !app_assoc. reflexivity.
Qed.

(** X22: the poller times out when the index never converges.  If the
    wall clock is never set back, so that every sleep moves it by at
    least five seconds, and no snapshot ever lists documents that are
    all indexed, the loop ends TimedOut within 122 passes, with a warning
    as its last word, and leaves the selected corpus and the statistics
    of the session as they were. *)
Theorem poller_times_out_when_the_index_never_converges :
  forall svc coll corpus t_start t_download t_upload n_tokens w,
    clock_runs_forward svc coll corpus ->
    (forall j, fully_indexed svc coll corpus j = false) ->
    exists w',
      monitor_indexing 122 svc coll corpus t_start t_download t_upload n_tokens w
      = (Ok (Some TimedOut), w')
      /\ session_selected_corpus w' = session_selected_corpus w
      /\ session_performance_stats w' = session_performance_stats w
      /\ exists evs, page w' = (page w ++ evs ++ [Warning (TimeoutReached max_wait_time)])%list.
Proof.
  intros svc coll corpus dst dl ul tok w Hclock Hnever.
  pose proof (proj1 Hclock FirstPass) as Hpause.
  unfold monitor_indexing, bind, time_time, elapse.
  match goal with
  | |- context [poll_loop 122 ?c 0 ?w1] =>
      destruct (poll_loop_bounded c Hclock 121 0 w1) as (st & w' & Hrun & Hst & _);
      [cbn [monitoring_start_time now]; unfold max_wait_time, check_interval;
       change (inject_Z (Z.of_nat 121)) with 121%Q; lra|];
      pose proof (poll_loop_effects c 122 0 w1 _ w' Hrun) as (_ & _ & _ & Hother);
      pose proof (poll_loop_converged_on c 122 0 w1 w') as Hon;
      pose proof (poll_loop_timed_out_page c 122 0 w1 w') as Hpage
  end.
  cbn [session_selected_corpus session_performance_stats page] in Hother, Hpage.
  destruct Hst as [->| ->].
  - destruct (Hon Hrun) as (j & _ & Hfull).
    cbn [client collection_name selected_corpus] in Hfull.
    rewrite Hnever in Hfull. discriminate Hfull.
  - exists w'. split; [exact Hrun|].
    destruct (Hother ltac:(discriminate)) as [Hsel Hps].
    split; [exact Hsel|]. split; [exact Hps|].
    exact (Hpage Hrun).
Qed.

(** The clock of [Scenario.unreachable] is punctual and its status
    queries take no time. *)
Lemma unreachable_clock : clock_runs_forward Scenario.unreachable "default" "maud".
Proof.
  split; [|split]; intro; apply Qle_refl.
Qed.

Lemma poller_times_out_when_the_index_never_converges_witness :
  exists w',
    monitor_indexing 122 Scenario.unreachable "default" "maud" 0 2 3 6 (empty_world 5)
    = (Ok (Some TimedOut), w')
    /\ session_selected_corpus w' = session_selected_corpus (empty_world 5)
    /\ session_performance_stats w' = session_performance_stats (empty_world 5)
    /\ exists evs,
         page w' = (page (empty_world 5) ++ evs
                    ++ [Warning (TimeoutReached max_wait_time)])%list.
Proof.
  apply (poller_times_out_when_the_index_never_converges Scenario.unreachable
           "default" "maud" 0 2 3 6 (empty_world 5)).
  - exact unreachable_clock.
  - intro j. reflexivity.
Defined.
